(** * Finite-difference engine of [pennylane/_grad.py]

    A shallow embedding of [finite_diff], [_fd_first_order_centered] and
    [_fd_second_order_centered], and the properties of their validation and
    of their stencils.

    Conventions of the embedding:
    - Python floats are idealised to exact rationals ([Qc], rationals in
      lowest terms, with Leibniz equality).  Numbers and arrays are of
      dtype float64 or int64; numpy keeps the dtype of an array when it
      builds [zeros_like] of it and when it stores a value in it.
    - The user-supplied callable is an external collaborator: a program is a
      tree whose [Call] nodes are the evaluations of the callable, so that
      "the callable is not evaluated" is a property of the tree and of the
      call log produced by [run].
    - Python exceptions are the [Raise] leaves of the tree. *)

From Stdlib Require Import String ZArith QArith Qcanon Bool List Sorted Lia Field.
Import ListNotations.

Open Scope Z_scope.

(** ** Data model *)

(** A numpy array: its shape and its elements in row-major order.  For an
    array built by numpy, [length (data a) = size a] ([wf_ndarray]). *)
Record ndarray (T : Type) : Type := mk_ndarray {
  shape : list nat;
  data : list T
}.
Arguments mk_ndarray {T} _ _.
Arguments shape {T} _.
Arguments data {T} _.

Definition prod_shape (shp : list nat) : nat := fold_right Nat.mul 1%nat shp.

Definition ndim {T} (a : ndarray T) : nat := length (shape a).
Definition size {T} (a : ndarray T) : nat := prod_shape (shape a).

Definition wf_ndarray {T} (a : ndarray T) : Prop :=
  length (data a) = size a.

(** The values a caller passes in positional and keyword arguments: a Python
    float (also a numpy float scalar), a float array, a Python integer (also
    a numpy integer scalar), or an integer array. *)
Inductive pyarg : Type :=
| PyFloat (q : Qc)
| PyArray (a : ndarray Qc)
| PyInteger (z : Z)
| PyIntArray (a : ndarray Z).

Definition kwargs : Type := list (string * pyarg).

(** The slots of an array of dtype object: the integer 0 written by
    [zeros_like(x, dtype="O")], or a value computed from results of [f]. *)
Inductive pyobj : Type :=
| PyInt (z : Z)
| PyNum (v : Qc).

(** Payload of the [ValueError]s of the module, one constructor per message,
    carrying the values the message is formatted with. *)
Inductive value_error : Type :=
| ArgnumOutOfRange (upper got : Z)
| DeltaNotPositive (got : Qc)
| IdxWrongLength (dim : nat) (elt : list Z) (len : nat)
| IdxOutOfBounds (bounds : list Z) (elt : list Z)
| TooManyIndices (n : nat)
| BadIndexI (lo hi : Z) (got : option Z)
| NotEnoughValuesToUnpack (expected got : nat).

Inductive exn : Type :=
| ValueError (e : value_error)
| IndexError
| ZeroDivisionError
| TypeError.

(** ** Programs that call the user function *)

Inductive prog (A : Type) : Type :=
| Ret (a : A)
| Raise (e : exn)
| Call (pos : list pyarg) (kw : kwargs) (k : Qc -> prog A).
Arguments Ret {A} _.
Arguments Raise {A} _.
Arguments Call {A} _ _ _.

Fixpoint bind {A B} (p : prog A) (g : A -> prog B) : prog B :=
  match p with
  | Ret a => g a
  | Raise e => Raise e
  | Call pos kw k => Call pos kw (fun v => bind (k v) g)
  end.

Definition call (pos : list pyarg) (kw : kwargs) : prog Qc := Call pos kw Ret.

Declare Scope prog_scope.
Delimit Scope prog_scope with prog.
Notation "x <- c1 ;; c2" := (bind c1 (fun x => c2))
  (at level 100, c1 at next level, right associativity) : prog_scope.
Notation "c1 ;; c2" := (bind c1 (fun _ => c2))
  (at level 100, right associativity) : prog_scope.
Open Scope prog_scope.

Definition user_fn : Type := list pyarg -> kwargs -> Qc.

Inductive outcome (A : Type) : Type :=
| Returned (a : A)
| Raised (e : exn).
Arguments Returned {A} _.
Arguments Raised {A} _.

Definition call_log : Type := list (list pyarg * kwargs).

(** Runs a program against a user function: the outcome, and the calls made
    to the function, in order. *)
Fixpoint run {A} (f : user_fn) (p : prog A) : outcome A * call_log :=
  match p with
  | Ret a => (Returned a, [])
  | Raise e => (Raised e, [])
  | Call pos kw k =>
      let r := run f (k (f pos kw)) in (fst r, (pos, kw) :: snd r)
  end.

(** ** Python sequences *)

(** [l[k]]: a negative [k] counts from the end; [None] is an [IndexError]. *)
Definition py_getitem {A} (l : list A) (k : Z) : option A :=
  let n := Z.of_nat (length l) in
  let k' := if k <? 0 then k + n else k in
  if (0 <=? k') && (k' <? n) then nth_error l (Z.to_nat k') else None.

(** Start or stop of a slice: negative values count from the end and are
    clipped at 0. *)
Definition py_slice_bound {A} (l : list A) (k : Z) : nat :=
  if k <? 0 then Z.to_nat (Z.max 0 (k + Z.of_nat (length l))) else Z.to_nat k.

(** [l[:k]] and [l[k:]]. *)
Definition py_slice_to {A} (l : list A) (k : Z) : list A :=
  firstn (py_slice_bound l k) l.
Definition py_slice_from {A} (l : list A) (k : Z) : list A :=
  skipn (py_slice_bound l k) l.

(** ** numpy *)

Inductive dtype : Type := Float64 | Int64.

(** A numeric array as numpy holds it: its dtype, and its shape and
    elements.  The elements of an array of dtype int64 are integers; they
    are kept as rationals, next to the dtype. *)
Record nparray : Type := mk_nparray {
  dtype_of : dtype;
  values :> ndarray Qc
}.

Definition Z2Qc (z : Z) : Qc := Q2Qc (inject_Z z).

(** Conversion of a float to an integer: the fractional part is dropped
    (rounding toward zero). *)
Definition Qc_trunc (q : Qc) : Z := Z.quot (Qnum q) (Z.pos (Qden q)).

(** What an array of dtype [dt] holds once the float [v] was stored in it:
    an integer array keeps the integer part only. *)
Definition np_cast (dt : dtype) (v : Qc) : Qc :=
  match dt with
  | Float64 => v
  | Int64 => Z2Qc (Qc_trunc v)
  end.

(** [np.array(v)]: a scalar becomes a zero-dimensional array; the dtype is
    the one of [v]. *)
Definition np_array (v : pyarg) : nparray :=
  match v with
  | PyFloat q => mk_nparray Float64 (mk_ndarray [] [q])
  | PyArray a => mk_nparray Float64 a
  | PyInteger z => mk_nparray Int64 (mk_ndarray [] [Z2Qc z])
  | PyIntArray a => mk_nparray Int64 (mk_ndarray (shape a) (map Z2Qc (data a)))
  end.

(** An array as the value Python code receives. *)
Definition py_of_array (x : nparray) : pyarg :=
  match dtype_of x with
  | Float64 => PyArray x
  | Int64 => PyIntArray (mk_ndarray (shape x) (map Qc_trunc (data x)))
  end.

(** The result of array arithmetic as numpy hands it out: arithmetic on
    zero-dimensional arrays yields a scalar. *)
Definition np_value (a : nparray) : pyarg :=
  match shape a, data a with
  | [], [q] =>
      match dtype_of a with
      | Float64 => PyFloat q
      | Int64 => PyInteger (Qc_trunc q)
      end
  | _, _ => py_of_array a
  end.

(** [np.zeros_like(x)]: the shape and the dtype of [x]. *)
Definition np_zeros_like (x : nparray) : nparray :=
  mk_nparray (dtype_of x)
             (mk_ndarray (shape x) (repeat (Q2Qc 0) (length (data x)))).

(** [np.zeros_like(x, dtype="O")]: the shape of [x], slots of Python
    objects. *)
Definition np_zeros_like_obj (x : ndarray Qc) : ndarray pyobj :=
  mk_ndarray (shape x) (repeat (PyInt 0) (length (data x))).

Fixpoint zip_with {A B C} (g : A -> B -> C) (l : list A) (m : list B) : list C :=
  match l, m with
  | a :: l', b :: m' => g a b :: zip_with g l' m'
  | _, _ => []
  end.

(** The elements of [x + s] and of [x - s] for arrays of one shape. *)
Definition np_add (x s : ndarray Qc) : ndarray Qc :=
  mk_ndarray (shape x) (zip_with Qcplus (data x) (data s)).
Definition np_sub (x s : ndarray Qc) : ndarray Qc :=
  mk_ndarray (shape x) (zip_with Qcminus (data x) (data s)).

(** [x + s] and [x - s] for arrays of one shape and one dtype, which is the
    dtype of the result. *)
Definition np_plus (x s : nparray) : nparray :=
  mk_nparray (dtype_of x) (np_add x s).
Definition np_minus (x s : nparray) : nparray :=
  mk_nparray (dtype_of x) (np_sub x s).

(** One component of an index against an axis of [n] elements: negative
    components count from the end; [None] is out of bounds. *)
Definition wrap_axis (n : nat) (c : Z) : option nat :=
  let c' := if c <? 0 then c + Z.of_nat n else c in
  if (0 <=? c') && (c' <? Z.of_nat n) then Some (Z.to_nat c') else None.

(** The elements an index tuple addresses: the offset of the first one and
    their number (1 for a tuple of full length, a whole sub-array for a
    shorter one).  [None] is an [IndexError]: a component out of bounds, or
    more components than axes. *)
Fixpoint locate (shp : list nat) (ix : list Z) : option (nat * nat) :=
  match ix, shp with
  | [], _ => Some (0%nat, prod_shape shp)
  | c :: cs, n :: s =>
      match wrap_axis n c, locate s cs with
      | Some c', Some (off, cnt) => Some ((c' * prod_shape s + off)%nat, cnt)
      | _, _ => None
      end
  | _ :: _, [] => None
  end.

Fixpoint update_range {T} (g : T -> T) (off cnt : nat) (l : list T) : list T :=
  match l with
  | [] => []
  | e :: r =>
      match off, cnt with
      | S o, _ => e :: update_range g o cnt r
      | O, S c => g e :: update_range g O c r
      | O, O => e :: r
      end
  end.

(** [a[ix] = v] *)
Definition np_setitem {T} (a : ndarray T) (ix : list Z) (v : T) : prog (ndarray T) :=
  match locate (shape a) ix with
  | Some (off, cnt) =>
      Ret (mk_ndarray (shape a) (update_range (fun _ => v) off cnt (data a)))
  | None => Raise IndexError
  end.

(** [a[ix] = v] for a numeric array and a float [v]: the value is stored
    in the dtype of [a]. *)
Definition np_store (a : nparray) (ix : list Z) (v : Qc) : prog nparray :=
  d <- np_setitem (values a) ix (np_cast (dtype_of a) v) ;;
  Ret (mk_nparray (dtype_of a) d).

(** [a[ix] += v] for a float [v].  When [ix] addresses one element, the sum
    is a float that is stored back in the dtype of [a].  When [ix] has fewer
    components than [a] has axes, [a[ix]] is a view and the sum is made in
    place, which numpy refuses for an integer array and a float (the cast
    from float64 to int64 is not of the same kind). *)
Definition np_iadd (a : nparray) (ix : list Z) (v : Qc) : prog nparray :=
  match locate (shape a) ix with
  | Some (off, cnt) =>
      match dtype_of a, (length ix <? ndim a)%nat with
      | Int64, true => Raise TypeError
      | dt, _ =>
          Ret (mk_nparray dt
                 (mk_ndarray (shape a)
                    (update_range (fun e => np_cast dt (e + v)%Qc) off cnt
                                  (data a))))
      end
  | None => Raise IndexError
  end.

(** [list(np.ndindex( *shp))]: every multi-index, in row-major order. *)
Fixpoint ndindex (shp : list nat) : list (list Z) :=
  match shp with
  | [] => [[]]
  | n :: s =>
      flat_map (fun k => map (cons (Z.of_nat k)) (ndindex s)) (seq 0 n)
  end.

(** ** Python floats *)

Definition half : Qc := Q2Qc (1 # 2).
Definition two : Qc := Q2Qc 2.

Definition Qcleb (a b : Qc) : bool := Qle_bool a b.

(** [delta ** -n]: a zero base raises [ZeroDivisionError]. *)
Definition py_pow_neg (delta : Qc) (n : nat) : prog Qc :=
  if Qc_eq_bool delta (Q2Qc 0) then Raise ZeroDivisionError
  else Ret (/ (delta ^ n))%Qc.

(** ** The finite-difference operators *)

(** [f( *args[:argnum], v, *args[argnum + 1 :], **kwargs)] *)
Definition call_at (args : list pyarg) (argnum : Z) (kw : kwargs) (v : pyarg)
  : prog Qc :=
  call (py_slice_to args argnum ++ v :: py_slice_from args (argnum + 1)) kw.

(** [np.array(x.shape) - 1] *)
Definition idx_bounds (x : ndarray Qc) : list Z :=
  map (fun n => Z.of_nat n - 1) (shape x).

(** [(np.array(_idx) > bounds).any()], for operands of one length *)
Definition any_gt (_idx bounds : list Z) : bool :=
  existsb (fun cb => fst cb >? snd cb) (combine _idx bounds).

(** The loop [for _idx in idx] that validates a supplied [idx]. *)
Fixpoint check_idx (x : ndarray Qc) (idx : list (list Z)) : prog unit :=
  match idx with
  | [] => Ret tt
  | _idx :: rest =>
      if negb (length _idx =? ndim x)%nat then
        Raise (ValueError (IdxWrongLength (ndim x) _idx (length _idx)))
      else if any_gt _idx (idx_bounds x) then
        Raise (ValueError (IdxOutOfBounds (idx_bounds x) _idx))
      else check_idx x rest
  end.

(** The two checks that open both operators. *)
Definition check_argnum_delta (argnum : Z) (delta : Qc) (args : list pyarg)
  : prog unit :=
  if argnum >? Z.of_nat (length args) - 1 then
    Raise (ValueError (ArgnumOutOfRange (Z.of_nat (length args) - 1) argnum))
  else if Qcleb delta (Q2Qc 0) then
    Raise (ValueError (DeltaNotPositive delta))
  else Ret tt.

(** [x = np.array(args[argnum])] *)
Definition target (args : list pyarg) (argnum : Z) : prog nparray :=
  match py_getitem args argnum with
  | Some a => Ret (np_array a)
  | None => Raise IndexError
  end.

(** The loop [for i in idx] of [_fd_first_order_centered]. *)
Fixpoint fd_first_loop (args : list pyarg) (argnum : Z) (delta : Qc)
    (kw : kwargs) (x : nparray) (idx : list (list Z))
    (gradient : ndarray pyobj) : prog (ndarray pyobj) :=
  match idx with
  | [] => Ret gradient
  | i :: rest =>
      shift <- np_iadd (np_zeros_like x) i (half * delta)%Qc ;;
      fp <- call_at args argnum kw (np_value (np_plus x shift)) ;;
      fm <- call_at args argnum kw (np_value (np_minus x shift)) ;;
      inv <- py_pow_neg delta 1 ;;
      gradient' <- np_setitem gradient i (PyNum ((fp - fm) * inv)%Qc) ;;
      fd_first_loop args argnum delta kw x rest gradient'
  end.

Definition _fd_first_order_centered (argnum : Z) (delta : Qc)
    (args : list pyarg) (idx : option (list (list Z))) (kw : kwargs)
  : prog (ndarray pyobj) :=
  check_argnum_delta argnum delta args ;;
  x <- target args argnum ;;
  let gradient := np_zeros_like_obj x in
  idx' <- match idx with
          | None => Ret (ndindex (shape x))
          | Some l => check_idx x l ;; Ret l
          end ;;
  fd_first_loop args argnum delta kw x idx' gradient.

(** The stencils of [_fd_second_order_centered], after [i, j = idx]. *)
Definition fd_second_diagonal (args : list pyarg) (argnum : Z) (delta : Qc)
    (kw : kwargs) (x : nparray) (i : list Z) : prog Qc :=
  shift <- np_iadd (np_zeros_like x) i delta ;;
  fp <- call_at args argnum kw (np_value (np_plus x shift)) ;;
  f0 <- call_at args argnum kw (py_of_array x) ;;
  fm <- call_at args argnum kw (np_value (np_minus x shift)) ;;
  inv <- py_pow_neg delta 2 ;;
  Ret ((fp - two * f0 + fm) * inv)%Qc.

Definition fd_second_off_diagonal (args : list pyarg) (argnum : Z) (delta : Qc)
    (kw : kwargs) (x : nparray) (i j : list Z) : prog Qc :=
  shift_i <- np_iadd (np_zeros_like x) i (half * delta)%Qc ;;
  shift_j <- np_iadd (np_zeros_like x) j (half * delta)%Qc ;;
  fpp <- call_at args argnum kw
           (np_value (np_plus (np_plus x shift_i) shift_j)) ;;
  fmp <- call_at args argnum kw
           (np_value (np_plus (np_minus x shift_i) shift_j)) ;;
  fpm <- call_at args argnum kw
           (np_value (np_minus (np_plus x shift_i) shift_j)) ;;
  fmm <- call_at args argnum kw
           (np_value (np_minus (np_minus x shift_i) shift_j)) ;;
  inv <- py_pow_neg delta 2 ;;
  Ret ((fpp - fmp - fpm + fmm) * inv)%Qc.

Definition index_eqb (i j : list Z) : bool :=
  if list_eq_dec Z.eq_dec i j then true else false.

Definition _fd_second_order_centered (argnum : Z) (delta : Qc)
    (args : list pyarg) (idx : option (list (list Z))) (kw : kwargs)
  : prog Qc :=
  check_argnum_delta argnum delta args ;;
  x <- target args argnum ;;
  idx' <- match idx with
          | None => Ret [[]; []]
          | Some l =>
              if (2 <? length l)%nat then
                Raise (ValueError (TooManyIndices (length l)))
              else check_idx x l ;; Ret l
          end ;;
  match idx' with
  | [i; j] =>
      if index_eqb i j then fd_second_diagonal args argnum delta kw x i
      else fd_second_off_diagonal args argnum delta kw x i j
  | _ => Raise (ValueError (NotEnoughValuesToUnpack 2 (length idx')))
  end.

(** The perturbed points [x + d] and [x - d] of [finite_diff] for an array
    [x]: [i] is checked against [x.size], and [d] is [zeros_like(x)] with
    [0.5 * delta] stored at [d[i]]. *)
Definition finite_diff_array (a : nparray) (i : option Z) (delta : Qc)
  : prog (pyarg * pyarg) :=
  match i with
  | Some k =>
      if (0 <=? k) && (k <? Z.of_nat (size a)) then
        d <- np_store (np_zeros_like a) [k] (half * delta)%Qc ;;
        Ret (np_value (np_plus a d), np_value (np_minus a d))
      else Raise (ValueError (BadIndexI 0 (Z.of_nat (size a) - 1) i))
  | None => Raise (ValueError (BadIndexI 0 (Z.of_nat (size a) - 1) i))
  end.

(** The perturbed points for a Python number [x]: [d] is the float
    [delta * 0.5], and so are the sums, also for an integer [x]. *)
Definition finite_diff_scalar (q : Qc) (delta : Qc) : prog (pyarg * pyarg) :=
  let d := (delta * half)%Qc in
  Ret (PyFloat (q + d)%Qc, PyFloat (q - d)%Qc).

(** [finite_diff(F, x, i, delta)]: [F] is the callable the program calls,
    with one positional argument and no keyword argument; the [TypeError] of
    a non-callable [F] is excluded by typing.  [x] is a Python number or an
    array. *)
Definition finite_diff (x : pyarg) (i : option Z) (delta : Qc) : prog Qc :=
  points <- match x with
            | PyArray _ | PyIntArray _ =>
                finite_diff_array (np_array x) i delta
            | PyFloat q => finite_diff_scalar q delta
            | PyInteger z => finite_diff_scalar (Z2Qc z) delta
            end ;;
  fp <- call [fst points] [] ;;
  fm <- call [snd points] [] ;;
  inv <- py_pow_neg delta 1 ;;
  Ret ((fp - fm) * inv)%Qc.

(** ** The wrappers [grad] and [jacobian] *)

(** A positional argument as the wrappers see it: its value and, when it has
    one, its attribute [requires_grad]. *)
Record tensor_arg : Type := mk_tensor_arg {
  arg_value : pyarg;
  requires_grad : option bool
}.

(** [getattr(arg, "requires_grad", True)] *)
Definition is_trainable (a : tensor_arg) : bool :=
  match requires_grad a with
  | Some b => b
  | None => true
  end.

(** The loop [for idx, arg in enumerate(args)] of [_get_grad_fn] and of
    [_jacobian_function], from position [start] on: the positions of the
    arguments that require a gradient, in the order they are appended. *)
Fixpoint trainable_from (start : nat) (args : list tensor_arg) : list nat :=
  match args with
  | [] => []
  | a :: rest =>
      if is_trainable a then start :: trainable_from (S start) rest
      else trainable_from (S start) rest
  end.

Definition trainable_argnums (args : list tensor_arg) : list nat :=
  trainable_from 0 args.

(** The keyword argument [argnum]: an integer or a sequence of integers. *)
Inductive argnum_spec : Type :=
| ArgInt (k : Z)
| ArgSeq (ks : list Z).

(** What the wrappers take from the autograd library: the values it
    differentiates, [make_vjp] (behind [unary_to_nary]: for a function, an
    [argnum] and the arguments of a call, the vector-Jacobian product and the
    value of the forward pass), [vspace(ans).size] and [vspace(ans).ones()],
    the application of a vector-Jacobian product, [autograd.jacobian] and
    [np.stack(...).T]. *)
Record autograd : Type := mk_autograd {
  Fn : Type;
  Vjp : Type;
  Ans : Type;
  Cot : Type;
  Value : Type;
  make_vjp : Fn -> argnum_spec -> list tensor_arg -> kwargs -> Vjp * Ans;
  vspace_size : Ans -> nat;
  vspace_ones : Ans -> Cot;
  apply_vjp : Vjp -> Cot -> Value;
  autograd_jacobian : Fn -> Z -> list tensor_arg -> kwargs -> Value;
  stack_T : list Value -> Value
}.

(** The [TypeError] of [_grad_with_forward]. *)
Inductive grad_error : Type :=
| NotScalarOutput.

(** [grad._grad_with_forward(fun, argnum=argnum)( *args, **kwargs)] *)
Definition _grad_with_forward (ag : autograd) (fun_ : Fn ag)
    (argnum : argnum_spec) (args : list tensor_arg) (kw : kwargs)
  : grad_error + Value ag * Ans ag :=
  let (vjp, ans) := make_vjp ag fun_ argnum args kw in
  if negb (vspace_size ag ans =? 1)%nat then inl NotScalarOutput
  else inr (apply_vjp ag vjp (vspace_ones ag ans), ans).

(** The attributes of a [grad] object. *)
Record grad_object (ag : autograd) : Type := mk_grad_object {
  _forward : option (Ans ag);
  _grad_fn : option (list tensor_arg -> kwargs ->
                     grad_error + Value ag * Ans ag);
  _fun : Fn ag;
  _argnum : option argnum_spec
}.
Arguments _forward {ag} _.
Arguments _grad_fn {ag} _.
Arguments _fun {ag} _.
Arguments _argnum {ag} _.

(** [grad.__init__] *)
Definition grad_init (ag : autograd) (fun_ : Fn ag)
    (argnum : option argnum_spec) : grad_object ag :=
  {| _forward := None;
     _grad_fn := match argnum with
                 | Some an => Some (_grad_with_forward ag fun_ an)
                 | None => None
                 end;
     _fun := fun_;
     _argnum := argnum |}.

(** The [argnum] that [_get_grad_fn] builds from the arguments: the trainable
    positions, the single one unwrapped. *)
Definition inferred_argnum (args : list tensor_arg) : argnum_spec :=
  match trainable_argnums args with
  | [k] => ArgInt (Z.of_nat k)
  | ks => ArgSeq (map Z.of_nat ks)
  end.

(** [grad._get_grad_fn] *)
Definition _get_grad_fn {ag : autograd} (self : grad_object ag)
    (args : list tensor_arg)
  : list tensor_arg -> kwargs -> grad_error + Value ag * Ans ag :=
  match _grad_fn self with
  | Some g => g
  | None => _grad_with_forward ag (_fun self) (inferred_argnum args)
  end.

(** [grad.__call__]: the object after the call, and the value returned or
    the error raised. *)
Definition grad_call {ag : autograd} (self : grad_object ag)
    (args : list tensor_arg) (kw : kwargs)
  : grad_object ag * (grad_error + Value ag) :=
  match _get_grad_fn self args args kw with
  | inl e => (self, inl e)
  | inr (grad_value, ans) =>
      ({| _forward := Some ans;
          _grad_fn := _grad_fn self;
          _fun := _fun self;
          _argnum := _argnum self |}, inr grad_value)
  end.

(** The property [grad.forward] *)
Definition forward {ag : autograd} (self : grad_object ag) : option (Ans ag) :=
  _forward self.

(** What a call of the function made by [jacobian] returns: the empty tuple,
    or a value of autograd. *)
Inductive jacobian_result (ag : autograd) : Type :=
| EmptyTuple
| JValue (v : Value ag).
Arguments EmptyTuple {ag}.
Arguments JValue {ag} _.

(** [jacobian(func, argnum)( *args, **kwargs)] *)
Definition jacobian (ag : autograd) (func : Fn ag)
    (argnum : option argnum_spec) (args : list tensor_arg) (kw : kwargs)
  : jacobian_result ag :=
  match argnum with
  | Some (ArgInt k) => JValue (autograd_jacobian ag func k args kw)
  | Some (ArgSeq ks) =>
      JValue (stack_T ag (map (fun k => autograd_jacobian ag func k args kw) ks))
  | None =>
      match trainable_argnums args with
      | [] => EmptyTuple
      | [k] => JValue (autograd_jacobian ag func (Z.of_nat k) args kw)
      | ks =>
          JValue (stack_T ag (map (fun k => autograd_jacobian ag func
                                              (Z.of_nat k) args kw) ks))
      end
  end.

(** The calls of a [grad] object, one after the other. *)
Definition grad_calls {ag : autograd} (self : grad_object ag)
    (calls : list (list tensor_arg * kwargs)) : grad_object ag :=
  fold_left (fun s c => fst (grad_call s (fst c) (snd c))) calls self.

(** An autograd for the examples: functions of the first argument's first
    element are differentiated symbolically as their slope. *)
Definition ex_autograd : autograd :=
  {| Fn := Qc; Vjp := Qc; Ans := Qc; Cot := Qc; Value := Qc;
     make_vjp := fun slope _ _ _ => (slope, slope);
     vspace_size := fun _ => 1%nat;
     vspace_ones := fun _ => Q2Qc 1;
     apply_vjp := fun vjp c => (vjp * c)%Qc;
     autograd_jacobian := fun slope _ _ _ => slope;
     stack_T := fun vs => fold_right Qcplus (Q2Qc 0) vs |}.

(** ** Vocabulary of the properties *)

(** The list of [n] elements that is zero everywhere except [v] at
    position [p]. *)
Fixpoint one_hot (n p : nat) (v : Qc) : list Qc :=
  match n with
  | O => []
  | S n' =>
      match p with
      | O => v :: repeat (Q2Qc 0) n'
      | S p' => Q2Qc 0 :: one_hot n' p' v
      end
  end.

(** The array of shape [shp] that is zero everywhere except [v] at the
    element of row-major position [p]. *)
Definition unit_array (shp : list nat) (p : nat) (v : Qc) : ndarray Qc :=
  mk_ndarray shp (one_hot (prod_shape shp) p v).

(** The shift the operators build for a step [v] at the element of
    row-major position [p] of [x]: [zeros_like(x)], of the dtype of [x], with
    [v] stored at that element.  For a float array the element holds [v]. *)
Definition shift_at (x : nparray) (p : nat) (v : Qc) : nparray :=
  mk_nparray (dtype_of x) (unit_array (shape x) p (np_cast (dtype_of x) v)).

(** The elements of an array agree with its dtype: those of an integer
    array are integers. *)
Definition typed (x : nparray) : Prop :=
  Forall (fun q => np_cast (dtype_of x) q = q) (data x).

(** An index tuple numpy accepts as the index of one element: as many
    components as axes, each in [-n, n-1] for an axis of [n] elements. *)
Definition valid_index (shp : list nat) (ix : list Z) : Prop :=
  Forall2 (fun c n => - Z.of_nat n <= c < Z.of_nat n) ix shp.

(** The index tuples without negative components. *)
Definition in_bounds (shp : list nat) (ix : list Z) : Prop :=
  Forall2 (fun c n => 0 <= c < Z.of_nat n) ix shp.

(** What the validation of a supplied [idx] asks of a tuple: the length of
    the shape, and no component above its axis's size - 1. *)
Definition passes_check (shp : list nat) (ix : list Z) : Prop :=
  Forall2 (fun c n => c <= Z.of_nat n - 1) ix shp.

(** A tuple the validation must reject: its length differs from the
    dimensionality, or some component exceeds its axis's size - 1. *)
Definition bad_index (shp : list nat) (ix : list Z) : Prop :=
  length ix <> length shp \/
  exists k c n, nth_error ix k = Some c /\ nth_error shp k = Some n /\
                c > Z.of_nat n - 1.

(** Row-major position of the element a valid index addresses, negative
    components counting from the end of their axis. *)
Fixpoint ravel (shp : list nat) (ix : list Z) : nat :=
  match ix, shp with
  | c :: cs, n :: s =>
      (Z.to_nat (c mod Z.of_nat n) * prod_shape s + ravel s cs)%nat
  | _, _ => 0%nat
  end.

(** The element of an array at an index tuple. *)
Definition np_item {T} (a : ndarray T) (ix : list Z) : option T :=
  match locate (shape a) ix with
  | Some (p, _) => nth_error (data a) p
  | None => None
  end.

(** The positional arguments with the one at position [k] replaced. *)
Definition with_arg (args : list pyarg) (k : nat) (v : pyarg) : list pyarg :=
  firstn k args ++ v :: skipn (S k) args.

(** The centered first difference of [f] in the element of position [p] of
    the argument [x] at position [k], for the shift of the step [delta / 2]
    in the dtype of [x]. *)
Definition first_difference (f : user_fn) (args : list pyarg) (k : nat)
    (kw : kwargs) (x : nparray) (delta : Qc) (p : nat) : Qc :=
  let shift := shift_at x p (delta / two)%Qc in
  ((f (with_arg args k (np_value (np_plus x shift))) kw
    - f (with_arg args k (np_value (np_minus x shift))) kw) / delta)%Qc.

(** The three-point stencil in the element of position [p], for the shift of
    the step [delta] in the dtype of [x]. *)
Definition three_point (f : user_fn) (args : list pyarg) (k : nat)
    (kw : kwargs) (x : nparray) (delta : Qc) (p : nat) : Qc :=
  let shift := shift_at x p delta in
  ((f (with_arg args k (np_value (np_plus x shift))) kw
    - two * f (with_arg args k (py_of_array x)) kw
    + f (with_arg args k (np_value (np_minus x shift))) kw) / (delta ^ 2))%Qc.

(** The four-point cross stencil in the elements of positions [p] and [q],
    for the shifts of the step [delta / 2] in the dtype of [x]. *)
Definition four_point (f : user_fn) (args : list pyarg) (k : nat)
    (kw : kwargs) (x : nparray) (delta : Qc) (p q : nat) : Qc :=
  let si := shift_at x p (delta / two)%Qc in
  let sj := shift_at x q (delta / two)%Qc in
  ((f (with_arg args k (np_value (np_plus (np_plus x si) sj))) kw
    - f (with_arg args k (np_value (np_plus (np_minus x si) sj))) kw
    - f (with_arg args k (np_value (np_minus (np_plus x si) sj))) kw
    + f (with_arg args k (np_value (np_minus (np_minus x si) sj))) kw)
   / (delta ^ 2))%Qc.

(** The indices a call of the first-order operator is asked for. *)
Definition requested (x : ndarray Qc) (idx : option (list (list Z)))
    (i : list Z) : Prop :=
  match idx with
  | Some l => In i l
  | None => in_bounds (shape x) i
  end.

Fixpoint dot (a y : list Qc) : Qc :=
  match a, y with
  | a0 :: a', y0 :: y' => (a0 * y0 + dot a' y')%Qc
  | _, _ => Q2Qc 0
  end.

(** The linear function [f(x) = a . x] of the argument at position [k]. *)
Definition linear (a : list Qc) (k : nat) : user_fn :=
  fun pos _ =>
    match nth_error pos k with
    | Some v => dot a (data (np_array v))
    | None => Q2Qc 0
    end.

(** The calls of one step of the first-order loop, at position [p]. *)
Definition first_calls (args : list pyarg) (k : nat) (kw : kwargs)
    (x : nparray) (delta : Qc) (p : nat) : call_log :=
  let shift := shift_at x p (delta / two)%Qc in
  [(with_arg args k (np_value (np_plus x shift)), kw);
   (with_arg args k (np_value (np_minus x shift)), kw)].

(** An object array with the slot of position [p] overwritten. *)
Definition set_slot (g : ndarray pyobj) (p : nat) (v : pyobj) : ndarray pyobj :=
  mk_ndarray (shape g) (update_range (fun _ => v) p 1 (data g)).

(** The object array [g] after the slot of every index of [idx], in order,
    received its entry. *)
Definition fill_gradient (entry : nat -> Qc) (shp : list nat)
    (idx : list (list Z)) (g : ndarray pyobj) : ndarray pyobj :=
  fold_left (fun g i => set_slot g (ravel shp i) (PyNum (entry (ravel shp i))))
            idx g.

(** An index tuple with its negative components replaced by the positions
    they count from the end of their axis. *)
Fixpoint from_end (shp : list nat) (ix : list Z) : list Z :=
  match ix, shp with
  | c :: cs, n :: s =>
      (if c <? 0 then c + Z.of_nat n else c) :: from_end s cs
  | _, _ => ix
  end.

(** Inputs of the examples: the sum of the elements of the first positional
    argument, a vector and a matrix. *)
Definition sum_first : user_fn :=
  fun pos _ =>
    match pos with
    | v :: _ => fold_right Qcplus (Q2Qc 0) (data (np_array v))
    | [] => Q2Qc 0
    end.

Definition ex_vector : ndarray Qc := mk_ndarray [2%nat] [Q2Qc 1; Q2Qc 2].

(** The integer vector [np.array([1, 2])]. *)
Definition ex_int_vector : ndarray Z := mk_ndarray [2%nat] [1; 2].

Definition ex_matrix : ndarray Qc :=
  mk_ndarray [2%nat; 2%nat] [Q2Qc 1; Q2Qc 2; Q2Qc 3; Q2Qc 4].

(** The array of shape [shp] with every element equal to [v]. *)
Definition full_array (shp : list nat) (v : Qc) : ndarray Qc :=
  mk_ndarray shp (repeat v (prod_shape shp)).

(** The quadratic function [a*y^2 + b*y + c] of the scalar argument at
    position [k] (a Python float or a zero-dimensional array). *)
Definition quadratic (a b c : Qc) (k : nat) : user_fn :=
  fun pos _ =>
    match nth_error pos k with
    | Some v =>
        match data (np_array v) with
        | [y] => (a * y * y + b * y + c)%Qc
        | _ => Q2Qc 0
        end
    | None => Q2Qc 0
    end.


(** ** Programs and their runs *)

Lemma run_bind {A B} (f : user_fn) (p : prog A) (g : A -> prog B) :
  run f (bind p g) =
  match fst (run f p) with
  | Returned a => (fst (run f (g a)), snd (run f p) ++ snd (run f (g a)))
  | Raised e => (Raised e, snd (run f p))
  end.
Proof.
  induction p as [a | e | pos kw k IH]; simpl.
  - now destruct (run f (g a)).
  - reflexivity.
  - rewrite IH. now destruct (fst (run f (k (f pos kw)))).
Qed.


(** ** Python sequences *)

Lemma py_getitem_nonneg {A} (l : list A) (k : Z) :
  0 <= k -> py_getitem l k = nth_error l (Z.to_nat k).
Proof.
  intros Hk. unfold py_getitem.
  destruct (k <? 0) eqn:E; [apply Z.ltb_lt in E; lia|].
  destruct (0 <=? k) eqn:E0; [|apply Z.leb_gt in E0; lia].
  destruct (k <? Z.of_nat (length l)) eqn:E1; simpl; [reflexivity|].
  apply Z.ltb_ge in E1. symmetry. apply nth_error_None. lia.
Qed.

Lemma py_getitem_below {A} (l : list A) (k : Z) :
  k < - Z.of_nat (length l) -> py_getitem l k = None.
Proof.
  intros Hk. unfold py_getitem.
  destruct (k <? 0) eqn:E; [|apply Z.ltb_ge in E; lia].
  destruct (0 <=? k + Z.of_nat (length l)) eqn:E0; [apply Z.leb_le in E0; lia|].
  reflexivity.
Qed.


Lemma py_slice_to_nonneg {A} (l : list A) (k : Z) :
  0 <= k -> py_slice_to l k = firstn (Z.to_nat k) l.
Proof.
  intros Hk. unfold py_slice_to, py_slice_bound.
  destruct (k <? 0) eqn:E; [apply Z.ltb_lt in E; lia|reflexivity].
Qed.

Lemma py_slice_from_nonneg {A} (l : list A) (k : Z) :
  0 <= k -> py_slice_from l (k + 1) = skipn (S (Z.to_nat k)) l.
Proof.
  intros Hk. unfold py_slice_from, py_slice_bound.
  destruct (k + 1 <? 0) eqn:E; [apply Z.ltb_lt in E; lia|].
  f_equal. lia.
Qed.

Lemma run_call_at (f : user_fn) (args : list pyarg) (argnum : Z) (kw : kwargs)
    (v : pyarg) :
  0 <= argnum ->
  run f (call_at args argnum kw v) =
  (Returned (f (with_arg args (Z.to_nat argnum) v) kw),
   [(with_arg args (Z.to_nat argnum) v, kw)]).
Proof.
  intros Hk. unfold call_at, call, with_arg. simpl.
  now rewrite py_slice_to_nonneg, py_slice_from_nonneg.
Qed.

(** ** Validation of [argnum] and [delta] *)

Lemma Qcleb_le (a b : Qc) : Qcleb a b = true <-> (a <= b)%Qc.
Proof. unfold Qcleb, Qcle. apply Qle_bool_iff. Qed.

Lemma Qcleb_gt (a b : Qc) : Qcleb a b = false <-> (b < a)%Qc.
Proof.
  split; intros H.
  - apply Qcnot_le_lt. intros Hle. apply Qcleb_le in Hle. congruence.
  - destruct (Qcleb a b) eqn:E; [|reflexivity].
    apply Qcleb_le in E. now apply Qcle_not_lt in E.
Qed.

Lemma check_argnum_delta_ok (argnum : Z) (delta : Qc) (args : list pyarg) :
  argnum <= Z.of_nat (length args) - 1 -> (0 < delta)%Qc ->
  check_argnum_delta argnum delta args = Ret tt.
Proof.
  intros Ha Hd. unfold check_argnum_delta.
  destruct (argnum >? Z.of_nat (length args) - 1) eqn:E.
  - apply Z.gtb_lt in E. lia.
  - apply Qcleb_gt in Hd. now rewrite Hd.
Qed.

Lemma check_argnum_above (argnum : Z) (delta : Qc) (args : list pyarg) :
  argnum > Z.of_nat (length args) - 1 ->
  check_argnum_delta argnum delta args =
  Raise (ValueError (ArgnumOutOfRange (Z.of_nat (length args) - 1) argnum)).
Proof.
  intros Ha. unfold check_argnum_delta.
  destruct (argnum >? Z.of_nat (length args) - 1) eqn:E; [reflexivity|].
  rewrite Z.gtb_ltb in E. apply Z.ltb_ge in E. lia.
Qed.

Lemma check_delta_nonpositive (argnum : Z) (delta : Qc) (args : list pyarg) :
  (delta <= 0)%Qc ->
  check_argnum_delta argnum delta args =
  Raise (ValueError
           (if argnum >? Z.of_nat (length args) - 1
            then ArgnumOutOfRange (Z.of_nat (length args) - 1) argnum
            else DeltaNotPositive delta)).
Proof.
  intros Hd. unfold check_argnum_delta.
  destruct (argnum >? Z.of_nat (length args) - 1); [reflexivity|].
  apply Qcleb_le in Hd. now rewrite Hd.
Qed.

Lemma check_argnum_delta_cases (argnum : Z) (delta : Qc) (args : list pyarg) :
  check_argnum_delta argnum delta args = Ret tt \/
  exists e, check_argnum_delta argnum delta args = Raise (ValueError e).
Proof.
  unfold check_argnum_delta.
  destruct (argnum >? Z.of_nat (length args) - 1); [right; eauto|].
  destruct (Qcleb delta (Q2Qc 0)); [right; eauto | now left].
Qed.

(** ** Validation of a supplied [idx] *)

Lemma any_gt_passes (shp : list nat) (ix : list Z) :
  length ix = length shp ->
  any_gt ix (map (fun n => Z.of_nat n - 1) shp) = false ->
  passes_check shp ix.
Proof.
  revert shp. induction ix as [|c cs IH]; intros [|n s] Hlen Hgt;
    simpl in *; try discriminate.
  - constructor.
  - unfold any_gt in Hgt. simpl in Hgt.
    apply orb_false_iff in Hgt. destruct Hgt as [Hc Hrest].
    constructor.
    + rewrite Z.gtb_ltb in Hc. apply Z.ltb_ge in Hc. exact Hc.
    + apply IH; [lia | exact Hrest].
Qed.

Lemma passes_any_gt (shp : list nat) (ix : list Z) :
  passes_check shp ix ->
  length ix = length shp /\
  any_gt ix (map (fun n => Z.of_nat n - 1) shp) = false.
Proof.
  induction 1 as [|c n cs s Hc _ [IHlen IHgt]]; [now split|].
  split; [simpl; lia|].
  unfold any_gt in *. simpl. rewrite IHgt, orb_false_r.
  rewrite Z.gtb_ltb. apply Z.ltb_ge. exact Hc.
Qed.

Lemma passes_not_bad (shp : list nat) (ix : list Z) :
  passes_check shp ix -> ~ bad_index shp ix.
Proof.
  induction 1 as [|c n cs s Hc Hrest IH]; intros [Hlen | (k & c' & n' & Hk & Hn & Hgt)].
  - now apply Hlen.
  - now destruct k.
  - apply IH. left. simpl in Hlen. lia.
  - destruct k as [|k]; simpl in Hk, Hn.
    + injection Hk as <-. injection Hn as <-. lia.
    + apply IH. right. now exists k, c', n'.
Qed.

Lemma valid_passes (shp : list nat) (ix : list Z) :
  valid_index shp ix -> passes_check shp ix.
Proof. induction 1; constructor; [lia | assumption]. Qed.

Lemma in_bounds_valid (shp : list nat) (ix : list Z) :
  in_bounds shp ix -> valid_index shp ix.
Proof. induction 1; constructor; [lia | assumption]. Qed.

Lemma check_idx_ok (x : ndarray Qc) (idx : list (list Z)) :
  Forall (passes_check (shape x)) idx -> check_idx x idx = Ret tt.
Proof.
  induction 1 as [|t rest Ht _ IH]; [reflexivity|].
  simpl. destruct (passes_any_gt _ _ Ht) as [Hlen Hgt].
  unfold ndim, idx_bounds. rewrite Hlen, Nat.eqb_refl, Hgt. exact IH.
Qed.

Lemma check_idx_passed (x : ndarray Qc) (idx : list (list Z)) :
  check_idx x idx = Ret tt -> Forall (passes_check (shape x)) idx.
Proof.
  induction idx as [|t rest IH]; intros H; [constructor|].
  simpl in H. unfold ndim, idx_bounds in H.
  destruct (length t =? length (shape x))%nat eqn:El; simpl in H; [|discriminate].
  destruct (any_gt t (map (fun n => Z.of_nat n - 1) (shape x))) eqn:Eg;
    [discriminate|].
  apply Nat.eqb_eq in El. constructor; [now apply any_gt_passes | now apply IH].
Qed.

Lemma check_idx_cases (x : ndarray Qc) (idx : list (list Z)) :
  check_idx x idx = Ret tt \/
  exists t, In t idx /\
    (check_idx x idx = Raise (ValueError (IdxWrongLength (ndim x) t (length t))) \/
     check_idx x idx = Raise (ValueError (IdxOutOfBounds (idx_bounds x) t))).
Proof.
  induction idx as [|t rest IH]; [now left|].
  simpl. destruct (length t =? ndim x)%nat; simpl.
  - destruct (any_gt t (idx_bounds x)).
    + right. exists t. split; [now left | now right].
    + destruct IH as [IH | (t' & Hin & IH)]; [now left|].
      right. exists t'. split; [now right | exact IH].
  - right. exists t. split; [now left | now left].
Qed.

Lemma check_idx_bad (x : ndarray Qc) (idx : list (list Z)) :
  Exists (bad_index (shape x)) idx ->
  exists e, check_idx x idx = Raise (ValueError e).
Proof.
  intros Hbad. destruct (check_idx_cases x idx) as [Hok | (t & _ & [H | H])];
    [|eauto..].
  apply check_idx_passed in Hok. apply Exists_exists in Hbad.
  destruct Hbad as (t & Hin & Hbad). rewrite Forall_forall in Hok.
  now apply passes_not_bad in Hbad; [|apply Hok].
Qed.

(** ** Indexing of arrays *)

Lemma wrap_axis_valid (n : nat) (c : Z) :
  - Z.of_nat n <= c < Z.of_nat n ->
  wrap_axis n c = Some (Z.to_nat (c mod Z.of_nat n)) /\
  (Z.to_nat (c mod Z.of_nat n) < n)%nat.
Proof.
  intros Hc. unfold wrap_axis.
  assert (Hmod : c mod Z.of_nat n = if c <? 0 then c + Z.of_nat n else c).
  { destruct (c <? 0) eqn:E.
    - apply Z.ltb_lt in E. symmetry.
      apply (Z.mod_unique_pos c (Z.of_nat n) (-1)); lia.
    - apply Z.ltb_ge in E. apply Z.mod_small. lia. }
  rewrite <- Hmod.
  assert (Hr : 0 <= c mod Z.of_nat n < Z.of_nat n) by (apply Z.mod_pos_bound; lia).
  destruct (0 <=? c mod Z.of_nat n) eqn:E0; [|apply Z.leb_gt in E0; lia].
  destruct (c mod Z.of_nat n <? Z.of_nat n) eqn:E1; [|apply Z.ltb_ge in E1; lia].
  split; [reflexivity | lia].
Qed.


Lemma locate_valid (shp : list nat) (ix : list Z) :
  valid_index shp ix ->
  locate shp ix = Some (ravel shp ix, 1%nat) /\
  (ravel shp ix < prod_shape shp)%nat.
Proof.
  induction 1 as [|c n cs s Hc _ [IHloc IHlt]]; simpl.
  - split; [reflexivity | lia].
  - destruct (wrap_axis_valid n c Hc) as [-> Hlt]. rewrite IHloc.
    split; [reflexivity | nia].
Qed.

Lemma ravel_in_bounds (shp : list nat) (ix : list Z) :
  in_bounds shp ix ->
  ravel shp ix =
  fold_left (fun acc cn => (acc * snd cn + Z.to_nat (fst cn))%nat)
            (combine ix shp) 0%nat.
Proof.
  assert (G : forall acc, in_bounds shp ix ->
    fold_left (fun acc cn => (acc * snd cn + Z.to_nat (fst cn))%nat)
              (combine ix shp) acc = (acc * prod_shape shp + ravel shp ix)%nat).
  { intros acc H. revert acc.
    induction H as [|c n cs s Hc _ IH]; intros acc; simpl; [lia|].
    rewrite IH, Z.mod_small by lia. nia. }
  intros H. rewrite (G 0%nat H). lia.
Qed.

Lemma update_range_length {T} (g : T -> T) (off cnt : nat) (l : list T) :
  length (update_range g off cnt l) = length l.
Proof.
  revert off cnt. induction l as [|e r IH]; intros off cnt; [reflexivity|].
  simpl. destruct off, cnt; simpl; now rewrite ?IH.
Qed.

Lemma update_range_hit {T} (g : T -> T) (p : nat) (l : list T) (e : T) :
  nth_error l p = Some e ->
  nth_error (update_range g p 1 l) p = Some (g e).
Proof.
  revert p. induction l as [|e0 r IH]; intros [|p] H; simpl in *;
    try discriminate.
  - now injection H as ->.
  - now apply IH.
Qed.

Lemma update_range_miss {T} (g : T -> T) (p k : nat) (l : list T) :
  k <> p -> nth_error (update_range g p 1 l) k = nth_error l k.
Proof.
  revert p k. induction l as [|e0 r IH]; intros p k Hk; [reflexivity|].
  simpl. destruct p as [|p].
  - destruct k as [|k]; [congruence|]. simpl. now destruct r.
  - destruct k as [|k]; [reflexivity|]. simpl. apply IH. congruence.
Qed.

Lemma update_range_zeros (p n : nat) (v : Qc) :
  update_range (fun e => (e + v)%Qc) p 1 (repeat (Q2Qc 0) n) = one_hot n p v.
Proof.
  revert p. induction n as [|n IH]; intros p; [reflexivity|].
  simpl. destruct p as [|p].
  - rewrite Qcplus_0_l. f_equal. now destruct n.
  - f_equal. apply IH.
Qed.

Lemma update_range_set_zeros (p n : nat) (v : Qc) :
  update_range (fun _ => v) p 1 (repeat (Q2Qc 0) n) = one_hot n p v.
Proof.
  revert p. induction n as [|n IH]; intros p; [reflexivity|].
  simpl. destruct p as [|p].
  - f_equal. now destruct n.
  - f_equal. apply IH.
Qed.

(** [one_hot n p v] is zero everywhere except [v] at position [p]. *)
Lemma one_hot_spec (n p k : nat) (v : Qc) :
  nth_error (one_hot n p v) k =
  if (k <? n)%nat then Some (if (k =? p)%nat then v else Q2Qc 0) else None.
Proof.
  revert p k. induction n as [|n IH]; intros p k.
  - now destruct k.
  - simpl. destruct p as [|p], k as [|k]; simpl; try reflexivity.
    + change (S k <? S n)%nat with (k <? n)%nat.
      destruct (k <? n)%nat eqn:E.
      * apply Nat.ltb_lt in E. apply nth_error_repeat. exact E.
      * apply Nat.ltb_ge in E. apply nth_error_None. now rewrite repeat_length.
    + apply IH.
Qed.

Lemma one_hot_length (n p : nat) (v : Qc) : length (one_hot n p v) = n.
Proof.
  revert p. induction n as [|n IH]; intros p; [reflexivity|].
  simpl. destruct p; simpl; now rewrite ?repeat_length, ?IH.
Qed.

(** ** Integers and the dtype of an array *)

Lemma Z2Qc_this (z : Z) : this (Z2Qc z) = inject_Z z.
Proof.
  unfold Z2Qc. cbn [this Q2Qc]. apply Qred_identity. simpl. apply Z.gcd_1_r.
Qed.

Lemma Qc_trunc_Z2Qc (z : Z) : Qc_trunc (Z2Qc z) = z.
Proof. unfold Qc_trunc. rewrite Z2Qc_this. simpl. apply Z.quot_1_r. Qed.

Lemma Z2Qc_plus (a b : Z) : (Z2Qc a + Z2Qc b)%Qc = Z2Qc (a + b).
Proof.
  apply Qc_is_canon. unfold Z2Qc, Qcplus, Q2Qc. cbn [this].
  rewrite !Qred_correct. rewrite inject_Z_plus. reflexivity.
Qed.

Lemma Z2Qc_opp (a : Z) : (- Z2Qc a)%Qc = Z2Qc (- a).
Proof.
  apply Qc_is_canon. unfold Z2Qc, Qcopp, Q2Qc. cbn [this].
  rewrite !Qred_correct. rewrite inject_Z_opp. reflexivity.
Qed.

Lemma Z2Qc_minus (a b : Z) : (Z2Qc a - Z2Qc b)%Qc = Z2Qc (a - b).
Proof. unfold Qcminus. now rewrite Z2Qc_opp, Z2Qc_plus. Qed.

(** Truncation rounds toward zero, so it commutes with the change of
    sign. *)
Lemma Qc_trunc_opp (q : Qc) : Qc_trunc (- q) = - Qc_trunc q.
Proof.
  unfold Qc_trunc.
  assert (H : this (- q)%Qc = Qopp q).
  { unfold Qcopp. cbn [this Q2Qc]. apply Qred_identity.
    destruct q as [[n d] Hc]. simpl.
    rewrite Z.gcd_opp_l.
    pose proof (Qred_iff (n # d)) as Hi. simpl in Hi. apply Hi.
    apply Hc. }
  rewrite H. destruct q as [[n d] Hc]. simpl. apply Z.quot_opp_l. discriminate.
Qed.

Lemma np_cast_idem (dt : dtype) (v : Qc) :
  np_cast dt (np_cast dt v) = np_cast dt v.
Proof. destruct dt; [reflexivity|]. simpl. now rewrite Qc_trunc_Z2Qc. Qed.

Lemma np_cast_zero (dt : dtype) : np_cast dt (Q2Qc 0) = Q2Qc 0.
Proof. now destruct dt. Qed.

Lemma np_cast_opp (dt : dtype) (v : Qc) :
  np_cast dt (- v) = (- np_cast dt v)%Qc.
Proof.
  destruct dt; [reflexivity|]. simpl. now rewrite Qc_trunc_opp, Z2Qc_opp.
Qed.

Lemma np_cast_plus (dt : dtype) (a b : Qc) :
  np_cast dt a = a -> np_cast dt b = b ->
  np_cast dt (a + b) = (a + b)%Qc /\ np_cast dt (a - b) = (a - b)%Qc.
Proof.
  destruct dt; [now split|]. simpl. intros <- <-.
  now rewrite Z2Qc_plus, Z2Qc_minus, !Qc_trunc_Z2Qc.
Qed.

Lemma typed_float (x : nparray) : dtype_of x = Float64 -> typed x.
Proof.
  intros H. unfold typed. rewrite H. apply Forall_forall. reflexivity.
Qed.

Lemma typed_np_array (a : pyarg) : typed (np_array a).
Proof.
  destruct a as [q | a | z | a]; try (now apply typed_float).
  - repeat constructor. simpl. now rewrite Qc_trunc_Z2Qc.
  - unfold typed. simpl. apply Forall_forall. intros q Hq.
    apply in_map_iff in Hq. destruct Hq as (z & <- & _).
    now rewrite Qc_trunc_Z2Qc.
Qed.

Lemma typed_one_hot (dt : dtype) (n p : nat) (v : Qc) :
  Forall (fun q => np_cast dt q = q) (one_hot n p (np_cast dt v)).
Proof.
  assert (Hz : forall m, Forall (fun q => np_cast dt q = q) (repeat (Q2Qc 0) m)).
  { intros m. apply Forall_forall. intros q Hq. apply repeat_spec in Hq.
    subst q. apply np_cast_zero. }
  revert p. induction n as [|n IH]; intros p; [constructor|].
  simpl. destruct p as [|p]; constructor.
  - apply np_cast_idem.
  - apply Hz.
  - apply np_cast_zero.
  - apply IH.
Qed.

(** In a float array the shift holds the step itself. *)
Lemma shift_at_float (x : nparray) (p : nat) (v : Qc) :
  dtype_of x = Float64 ->
  shift_at x p v = mk_nparray Float64 (unit_array (shape x) p v).
Proof. intros H. unfold shift_at. now rewrite H. Qed.

Lemma typed_shift_at (x : nparray) (p : nat) (v : Qc) : typed (shift_at x p v).
Proof. apply typed_one_hot. Qed.

Lemma typed_zip (dt : dtype) (x s : list Qc) :
  Forall (fun q => np_cast dt q = q) x ->
  Forall (fun q => np_cast dt q = q) s ->
  Forall (fun q => np_cast dt q = q) (zip_with Qcplus x s) /\
  Forall (fun q => np_cast dt q = q) (zip_with Qcminus x s).
Proof.
  intros Hx. revert s. induction Hx as [|x0 x Hx0 _ IH]; intros s Hs.
  - split; constructor.
  - destruct Hs as [|s0 s Hs0 Hs]; [split; constructor|].
    destruct (IH s Hs) as [IHp IHm].
    destruct (np_cast_plus dt x0 s0 Hx0 Hs0) as [Hp Hm].
    split; now constructor.
Qed.

Lemma typed_np_plus (x s : nparray) :
  dtype_of s = dtype_of x -> typed x -> typed s ->
  typed (np_plus x s) /\ typed (np_minus x s).
Proof.
  unfold typed. intros E Hx Hs. rewrite E in Hs. cbn [np_plus np_minus dtype_of values np_add np_sub data].
  now apply typed_zip.
Qed.

(** An array whose elements agree with its dtype loses nothing when it is
    handed to Python code and read back. *)
Lemma map_cast_typed (x : nparray) :
  typed x -> dtype_of x = Int64 -> map Z2Qc (map Qc_trunc (data x)) = data x.
Proof.
  unfold typed. intros H E. rewrite E in H. rewrite map_map.
  induction H as [|q l Hq _ IH]; [reflexivity|].
  simpl in *. now rewrite Hq, IH.
Qed.

Lemma np_array_py_of_array (y : nparray) :
  typed y -> np_array (py_of_array y) = y.
Proof.
  intros Hy. unfold py_of_array.
  destruct (dtype_of y) eqn:E.
  - destruct y as [dt v]. simpl in *. now subst dt.
  - cbn [np_array shape data]. rewrite (map_cast_typed y Hy E).
    destruct y as [dt [shp d]]. simpl in *. now subst dt.
Qed.

Lemma np_array_np_value (y : nparray) :
  typed y -> np_array (np_value y) = y.
Proof.
  intros Hy. unfold np_value.
  destruct (shape y) as [|n s] eqn:Es; [|now apply np_array_py_of_array].
  destruct (data y) as [|q [|q' d]] eqn:Ed; try (now apply np_array_py_of_array).
  destruct y as [dt [shp dat]]. simpl in *. subst shp dat.
  destruct dt; [reflexivity|].
  unfold typed in Hy. simpl in Hy. inversion Hy as [|? ? Hq _]; subst.
  cbn [np_array]. now rewrite Hq.
Qed.

Lemma update_range_cast_zeros (dt : dtype) (p n : nat) (v : Qc) :
  update_range (fun e => np_cast dt (e + v)%Qc) p 1 (repeat (Q2Qc 0) n) =
  one_hot n p (np_cast dt v).
Proof.
  revert p. induction n as [|n IH]; intros p; [reflexivity|].
  simpl. destruct p as [|p].
  - rewrite Qcplus_0_l. f_equal. now destruct n.
  - f_equal. apply IH.
Qed.

Lemma valid_index_length (shp : list nat) (ix : list Z) :
  valid_index shp ix -> length ix = length shp.
Proof. induction 1; simpl; congruence. Qed.

Lemma np_iadd_valid (x : nparray) (ix : list Z) (v : Qc) :
  wf_ndarray x -> valid_index (shape x) ix ->
  np_iadd (np_zeros_like x) ix v = Ret (shift_at x (ravel (shape x) ix) v).
Proof.
  intros Hwf Hv. unfold np_iadd, np_zeros_like, ndim.
  cbn [values dtype_of shape data].
  destruct (locate_valid _ _ Hv) as [-> _].
  rewrite (valid_index_length _ _ Hv), Nat.ltb_irrefl.
  unfold shift_at, unit_array.
  destruct (dtype_of x); now rewrite update_range_cast_zeros, Hwf.
Qed.

(** ** Powers of the step size *)

Lemma py_pow_neg_nonzero (delta : Qc) (n : nat) :
  delta <> Q2Qc 0 -> py_pow_neg delta n = Ret (/ (delta ^ n))%Qc.
Proof.
  intros Hd. unfold py_pow_neg.
  destruct (Qc_eq_bool delta (Q2Qc 0)) eqn:E; [|reflexivity].
  now apply Qc_eq_bool_correct in E.
Qed.


Lemma positive_nonzero (delta : Qc) : (0 < delta)%Qc -> delta <> Q2Qc 0.
Proof. intros H E. apply Qclt_not_eq in H. congruence. Qed.

Lemma half_inverse : half = (/ two)%Qc.
Proof. apply Qc_is_canon. reflexivity. Qed.

Lemma two_sum : two = (1 + 1)%Qc.
Proof. apply Qc_is_canon. reflexivity. Qed.

Lemma half_step (delta : Qc) : (half * delta = delta / two)%Qc.
Proof. unfold Qcdiv. rewrite half_inverse. apply Qcmult_comm. Qed.

Lemma half_step_r (delta : Qc) : (delta * half = delta / two)%Qc.
Proof. unfold Qcdiv. now rewrite half_inverse. Qed.

Lemma times_inverse (a delta : Qc) : (a * / (delta ^ 1) = a / delta)%Qc.
Proof. unfold Qcdiv. simpl. now rewrite Qcmult_1_r. Qed.

(** ** The multi-indices of a shape *)

Lemma ndindex_in_bounds (shp : list nat) (ix : list Z) :
  In ix (ndindex shp) <-> in_bounds shp ix.
Proof.
  revert ix. induction shp as [|n s IH]; intros ix; simpl.
  - split.
    + intros [<- | []]. constructor.
    + intros H. inversion H. now left.
  - rewrite in_flat_map. split.
    + intros (k & Hk & Hin). apply in_map_iff in Hin.
      destruct Hin as (cs & <- & Hcs). apply in_seq in Hk.
      constructor; [lia | now apply IH].
    + intros H. inversion H as [|c n' cs s' Hc Hcs]; subst.
      exists (Z.to_nat c). split; [apply in_seq; lia|].
      apply in_map_iff. exists cs. split; [f_equal; lia | now apply IH].
Qed.

(** ** Filling the gradient *)

Lemma fill_gradient_cons (entry : nat -> Qc) (shp : list nat) (i : list Z)
    (rest : list (list Z)) (g : ndarray pyobj) :
  fill_gradient entry shp (i :: rest) g =
  fill_gradient entry shp rest
    (set_slot g (ravel shp i) (PyNum (entry (ravel shp i)))).
Proof. reflexivity. Qed.

Lemma fill_gradient_shape (entry : nat -> Qc) (shp : list nat)
    (idx : list (list Z)) (g : ndarray pyobj) :
  shape (fill_gradient entry shp idx g) = shape g.
Proof.
  revert g. induction idx as [|i rest IH]; intros g; [reflexivity|].
  now rewrite fill_gradient_cons, IH.
Qed.

Lemma fill_gradient_length (entry : nat -> Qc) (shp : list nat)
    (idx : list (list Z)) (g : ndarray pyobj) :
  length (data (fill_gradient entry shp idx g)) = length (data g).
Proof.
  revert g. induction idx as [|i rest IH]; intros g; [reflexivity|].
  rewrite fill_gradient_cons, IH. apply update_range_length.
Qed.

Lemma fill_gradient_keep (entry : nat -> Qc) (shp : list nat)
    (idx : list (list Z)) (g : ndarray pyobj) (p : nat) :
  nth_error (data g) p = Some (PyNum (entry p)) ->
  nth_error (data (fill_gradient entry shp idx g)) p = Some (PyNum (entry p)).
Proof.
  revert g. induction idx as [|i rest IH]; intros g Hp; [exact Hp|].
  rewrite fill_gradient_cons. apply IH. unfold set_slot. cbn [data].
  destruct (Nat.eq_dec p (ravel shp i)) as [-> | Hne].
  - now apply update_range_hit with (e := PyNum (entry (ravel shp i))).
  - now rewrite update_range_miss.
Qed.

Lemma fill_gradient_hit (entry : nat -> Qc) (shp : list nat)
    (idx : list (list Z)) (g : ndarray pyobj) (i : list Z) :
  In i idx -> (ravel shp i < length (data g))%nat ->
  nth_error (data (fill_gradient entry shp idx g)) (ravel shp i) =
  Some (PyNum (entry (ravel shp i))).
Proof.
  revert g. induction idx as [|j rest IH]; intros g Hin Hlt; [destruct Hin|].
  rewrite fill_gradient_cons. destruct Hin as [-> | Hin].
  - apply fill_gradient_keep. unfold set_slot. cbn [data].
    destruct (nth_error (data g) (ravel shp i)) as [e|] eqn:E.
    + now apply update_range_hit with (e := e).
    + apply nth_error_None in E. lia.
  - apply IH; [exact Hin|]. unfold set_slot. cbn [data].
    now rewrite update_range_length.
Qed.

Lemma fill_gradient_miss (entry : nat -> Qc) (shp : list nat)
    (idx : list (list Z)) (g : ndarray pyobj) (p : nat) :
  (forall i, In i idx -> ravel shp i <> p) ->
  nth_error (data (fill_gradient entry shp idx g)) p = nth_error (data g) p.
Proof.
  revert g. induction idx as [|j rest IH]; intros g Hne; [reflexivity|].
  rewrite fill_gradient_cons, IH.
  - unfold set_slot. cbn [data]. apply update_range_miss.
    intros ->. now apply (Hne j); [left|].
  - intros i Hi. apply Hne. now right.
Qed.

(** ** The loop of the first-order operator *)

Section FirstOrderLoop.

Variables (f : user_fn) (args : list pyarg) (argnum : Z) (delta : Qc)
          (kw : kwargs) (x : nparray).
Hypothesis Hargnum : 0 <= argnum.
Hypothesis Hdelta : delta <> Q2Qc 0.
Hypothesis Hwf : wf_ndarray x.

Lemma run_fd_first_loop (idx : list (list Z)) (g : ndarray pyobj) :
  shape g = shape x ->
  Forall (valid_index (shape x)) idx ->
  run f (fd_first_loop args argnum delta kw x idx g) =
  (Returned
     (fill_gradient (first_difference f args (Z.to_nat argnum) kw x delta)
                    (shape x) idx g),
   flat_map (fun i => first_calls args (Z.to_nat argnum) kw x delta
                                  (ravel (shape x) i)) idx).
Proof.
  intros Hshape Hidx. revert g Hshape.
  induction Hidx as [|i rest Hi _ IH]; intros g Hshape; [reflexivity|].
  cbn [fd_first_loop].
  rewrite half_step, (np_iadd_valid _ _ _ Hwf Hi). cbn [bind].
  rewrite !run_bind, !run_call_at by exact Hargnum. cbn [fst snd].
  rewrite !run_bind, !run_call_at by exact Hargnum. cbn [fst snd].
  rewrite py_pow_neg_nonzero by exact Hdelta. cbn [bind].
  unfold np_setitem. rewrite Hshape.
  destruct (locate_valid _ _ Hi) as [-> _]. cbn [bind].
  rewrite times_inverse.
  rewrite IH by reflexivity. cbn [fst snd flat_map].
  rewrite fill_gradient_cons.
  unfold set_slot, first_difference, first_calls. rewrite Hshape.
  reflexivity.
Qed.

End FirstOrderLoop.

(** ** The first-order operator on valid input *)

Lemma nth_error_with_arg (args : list pyarg) (k : nat) (v : pyarg) :
  (k <= length args)%nat -> nth_error (with_arg args k v) k = Some v.
Proof.
  intros Hk. unfold with_arg.
  rewrite nth_error_app2; rewrite firstn_length_le by exact Hk; [|lia].
  now rewrite Nat.sub_diag.
Qed.

Lemma target_valid (args : list pyarg) (argnum : Z) (a : pyarg) :
  0 <= argnum -> nth_error args (Z.to_nat argnum) = Some a ->
  target args argnum = Ret (np_array a) /\
  argnum <= Z.of_nat (length args) - 1.
Proof.
  intros Hk Ha. unfold target. rewrite py_getitem_nonneg, Ha by exact Hk.
  split; [reflexivity|].
  assert (Z.to_nat argnum < length args)%nat
    by (apply nth_error_Some; congruence).
  lia.
Qed.

Lemma run_first_order_valid (f : user_fn) (argnum : Z) (delta : Qc)
    (args : list pyarg) (idx : option (list (list Z))) (kw : kwargs)
    (a : pyarg) :
  0 <= argnum -> nth_error args (Z.to_nat argnum) = Some a ->
  (0 < delta)%Qc -> wf_ndarray (np_array a) ->
  (forall l, idx = Some l -> Forall (valid_index (shape (np_array a))) l) ->
  let x := np_array a in
  let idx' := match idx with Some l => l | None => ndindex (shape x) end in
  run f (_fd_first_order_centered argnum delta args idx kw) =
  (Returned
     (fill_gradient (first_difference f args (Z.to_nat argnum) kw x delta)
                    (shape x) idx' (np_zeros_like_obj x)),
   flat_map (fun i => first_calls args (Z.to_nat argnum) kw x delta
                                  (ravel (shape x) i)) idx').
Proof.
  intros Hk Ha Hd Hwf Hidx x idx'. unfold _fd_first_order_centered.
  destruct (target_valid _ _ _ Hk Ha) as [Ht Hle].
  rewrite (check_argnum_delta_ok _ _ _ Hle Hd), Ht. cbn [bind].
  assert (Hvalid : Forall (valid_index (shape x)) idx').
  { subst idx'. destruct idx as [l|]; [now apply Hidx|].
    apply Forall_forall. intros i Hi.
    now apply in_bounds_valid, ndindex_in_bounds. }
  assert (Hprog : (match idx with
                   | Some l => check_idx (np_array a) l ;; Ret l
                   | None => Ret (ndindex (shape (np_array a)))
                   end) = Ret idx').
  { subst idx'. destruct idx as [l|]; [|reflexivity].
    rewrite check_idx_ok; [reflexivity|].
    eapply Forall_impl; [|exact Hvalid]. intros i. apply valid_passes. }
  rewrite Hprog. cbn [bind].
  apply run_fd_first_loop;
    [exact Hk | now apply positive_nonzero | exact Hwf | reflexivity
    | exact Hvalid].
Qed.

Lemma requested_valid (x : ndarray Qc) (idx : option (list (list Z)))
    (i : list Z) :
  (forall l, idx = Some l -> Forall (valid_index (shape x)) l) ->
  requested x idx i ->
  valid_index (shape x) i /\
  In i (match idx with Some l => l | None => ndindex (shape x) end).
Proof.
  intros Hidx Hreq. destruct idx as [l|]; simpl in Hreq.
  - split; [|exact Hreq].
    specialize (Hidx l eq_refl). rewrite Forall_forall in Hidx. now apply Hidx.
  - split; [now apply in_bounds_valid | now apply ndindex_in_bounds].
Qed.

Lemma first_order_entries (f : user_fn) (argnum : Z) (delta : Qc)
    (args : list pyarg) (idx : option (list (list Z))) (kw : kwargs)
    (a : pyarg) :
  0 <= argnum -> nth_error args (Z.to_nat argnum) = Some a ->
  (0 < delta)%Qc -> wf_ndarray (np_array a) ->
  (forall l, idx = Some l -> Forall (valid_index (shape (np_array a))) l) ->
  exists g,
    fst (run f (_fd_first_order_centered argnum delta args idx kw)) = Returned g /\
    shape g = shape (np_array a) /\
    wf_ndarray g /\
    forall i, requested (np_array a) idx i ->
      np_item g i =
      Some (PyNum (first_difference f args (Z.to_nat argnum) kw (np_array a)
                                    delta (ravel (shape (np_array a)) i))).
Proof.
  intros Hk Ha Hd Hwf Hidx.
  rewrite (run_first_order_valid f _ _ _ _ kw _ Hk Ha Hd Hwf Hidx).
  eexists. split; [reflexivity|].
  split; [apply fill_gradient_shape|].
  split.
  { unfold wf_ndarray, size. rewrite fill_gradient_length, fill_gradient_shape.
    simpl. rewrite repeat_length. exact Hwf. }
  intros i Hreq. destruct (requested_valid _ _ _ Hidx Hreq) as [Hv Hin].
  unfold np_item. rewrite fill_gradient_shape. simpl.
  destruct (locate_valid _ _ Hv) as [-> Hlt].
  apply fill_gradient_hit; [exact Hin|].
  simpl. rewrite repeat_length. unfold wf_ndarray, size in Hwf. lia.
Qed.

(** ** Linear functions *)

Lemma dot_zeros (a : list Qc) (n : nat) : dot a (repeat (Q2Qc 0) n) = Q2Qc 0.
Proof.
  revert n. induction a as [|a0 a IH]; intros [|n]; simpl; try reflexivity.
  rewrite IH. ring.
Qed.

Lemma dot_one_hot (a : list Qc) (n p : nat) (v : Qc) :
  (p < n)%nat -> dot a (one_hot n p v) = (nth p a (Q2Qc 0) * v)%Qc.
Proof.
  revert n p. induction a as [|a0 a IH]; intros n p Hp.
  - destruct p; simpl; ring.
  - destruct n as [|n]; [lia|]. destruct p as [|p]; simpl.
    + rewrite dot_zeros. ring.
    + rewrite IH by lia. ring.
Qed.

Lemma dot_centered (a x s : list Qc) :
  length x = length s ->
  (dot a (zip_with Qcplus x s) - dot a (zip_with Qcminus x s) =
   (1 + 1) * dot a s)%Qc.
Proof.
  revert x s. induction a as [|a0 a IH]; intros x s Hlen.
  - simpl. ring.
  - destruct x as [|x0 x], s as [|s0 s]; simpl in *; try discriminate.
    + ring.
    + injection Hlen as Hlen. specialize (IH x s Hlen).
      replace (a0 * (x0 + s0) + dot a (zip_with Qcplus x s)
               - (a0 * (x0 - s0) + dot a (zip_with Qcminus x s)))%Qc
        with ((1 + 1) * (a0 * s0)
              + (dot a (zip_with Qcplus x s) - dot a (zip_with Qcminus x s)))%Qc
        by ring.
      rewrite IH. ring.
Qed.

(** For a float [x] the first difference is taken with shifts that hold
    [delta / 2] itself. *)
Lemma first_difference_float (f : user_fn) (args : list pyarg) (k : nat)
    (kw : kwargs) (x : nparray) (delta : Qc) (p : nat) :
  dtype_of x = Float64 ->
  first_difference f args k kw x delta p =
  ((f (with_arg args k
         (np_value (mk_nparray Float64
                      (np_add x (unit_array (shape x) p (delta / two)%Qc)))))
      kw
    - f (with_arg args k
           (np_value (mk_nparray Float64
                        (np_sub x (unit_array (shape x) p (delta / two)%Qc)))))
        kw) / delta)%Qc.
Proof.
  intros Hfl. unfold first_difference, np_plus, np_minus. cbv zeta.
  rewrite shift_at_float by exact Hfl. now rewrite Hfl.
Qed.

(** The first difference of a linear function, for the step as the dtype
    of [x] stores it; for a float [x] it is the coefficient. *)
Lemma first_difference_linear_stored (a : list Qc) (args : list pyarg)
    (k : nat) (kw : kwargs) (x : nparray) (delta : Qc) (p : nat) :
  (k <= length args)%nat -> wf_ndarray x -> typed x -> (p < size x)%nat ->
  first_difference (linear a k) args k kw x delta p =
  (((1 + 1) * (nth p a (Q2Qc 0) * np_cast (dtype_of x) (delta / two)))
   / delta)%Qc.
Proof.
  intros Hk Hwf Ht Hp. unfold first_difference, linear. cbv zeta.
  destruct (typed_np_plus x (shift_at x p (delta / two)%Qc) eq_refl Ht
              (typed_shift_at _ _ _)) as [Htp Htm].
  rewrite !nth_error_with_arg by exact Hk.
  rewrite !np_array_np_value by assumption.
  unfold np_plus, np_minus, shift_at, np_add, np_sub, unit_array.
  cbn [data values].
  rewrite dot_centered by (rewrite one_hot_length; exact Hwf).
  now rewrite dot_one_hot by exact Hp.
Qed.

Lemma first_difference_linear (a : list Qc) (args : list pyarg) (k : nat)
    (kw : kwargs) (x : nparray) (delta : Qc) (p : nat) :
  (k <= length args)%nat -> delta <> Q2Qc 0 -> wf_ndarray x ->
  dtype_of x = Float64 -> (p < size x)%nat ->
  first_difference (linear a k) args k kw x delta p = nth p a (Q2Qc 0).
Proof.
  intros Hk Hd Hwf Hfl Hp.
  rewrite first_difference_linear_stored
    by (assumption || now apply typed_float).
  rewrite Hfl. cbn [np_cast].
  rewrite two_sum. field. split; [discriminate | exact Hd].
Qed.

(** ** The second-order operator on valid input *)

Section SecondOrderStencils.

Variables (f : user_fn) (args : list pyarg) (argnum : Z) (delta : Qc)
          (kw : kwargs) (x : nparray).
Hypothesis Hargnum : 0 <= argnum.
Hypothesis Hdelta : delta <> Q2Qc 0.
Hypothesis Hwf : wf_ndarray x.

Lemma run_fd_second_diagonal (i : list Z) :
  valid_index (shape x) i ->
  fst (run f (fd_second_diagonal args argnum delta kw x i)) =
  Returned (three_point f args (Z.to_nat argnum) kw x delta
                        (ravel (shape x) i)) /\
  length (snd (run f (fd_second_diagonal args argnum delta kw x i))) = 3%nat.
Proof.
  intros Hi. unfold fd_second_diagonal.
  rewrite (np_iadd_valid _ _ _ Hwf Hi). cbn [bind].
  rewrite !run_bind, !run_call_at by exact Hargnum. cbn [fst snd].
  rewrite !run_bind, !run_call_at by exact Hargnum. cbn [fst snd].
  rewrite !run_bind, !run_call_at by exact Hargnum. cbn [fst snd].
  rewrite py_pow_neg_nonzero by exact Hdelta. cbn [bind run fst snd].
  split; reflexivity.
Qed.

Lemma run_fd_second_off_diagonal (i j : list Z) :
  valid_index (shape x) i -> valid_index (shape x) j ->
  fst (run f (fd_second_off_diagonal args argnum delta kw x i j)) =
  Returned (four_point f args (Z.to_nat argnum) kw x delta
                       (ravel (shape x) i) (ravel (shape x) j)) /\
  length (snd (run f (fd_second_off_diagonal args argnum delta kw x i j))) =
  4%nat.
Proof.
  intros Hi Hj. unfold fd_second_off_diagonal.
  rewrite half_step, (np_iadd_valid _ _ _ Hwf Hi). cbn [bind].
  rewrite (np_iadd_valid _ _ _ Hwf Hj). cbn [bind].
  rewrite !run_bind, !run_call_at by exact Hargnum. cbn [fst snd].
  rewrite !run_bind, !run_call_at by exact Hargnum. cbn [fst snd].
  rewrite !run_bind, !run_call_at by exact Hargnum. cbn [fst snd].
  rewrite !run_bind, !run_call_at by exact Hargnum. cbn [fst snd].
  rewrite py_pow_neg_nonzero by exact Hdelta. cbn [bind run fst snd].
  split; reflexivity.
Qed.

End SecondOrderStencils.

Lemma index_eqb_eq (i j : list Z) : index_eqb i j = true <-> i = j.
Proof.
  unfold index_eqb. destruct (list_eq_dec Z.eq_dec i j); split;
    congruence.
Qed.

Lemma second_order_program (argnum : Z) (delta : Qc) (args : list pyarg)
    (i j : list Z) (kw : kwargs) (a : pyarg) :
  0 <= argnum -> nth_error args (Z.to_nat argnum) = Some a ->
  (0 < delta)%Qc ->
  passes_check (shape (np_array a)) i -> passes_check (shape (np_array a)) j ->
  _fd_second_order_centered argnum delta args (Some [i; j]) kw =
  if index_eqb i j then fd_second_diagonal args argnum delta kw (np_array a) i
  else fd_second_off_diagonal args argnum delta kw (np_array a) i j.
Proof.
  intros Hk Ha Hd Hi Hj. unfold _fd_second_order_centered.
  destruct (target_valid _ _ _ Hk Ha) as [Ht Hle].
  rewrite (check_argnum_delta_ok _ _ _ Hle Hd), Ht. cbn [bind].
  cbn [length Nat.ltb Nat.leb].
  rewrite check_idx_ok by (repeat constructor; assumption).
  reflexivity.
Qed.

Lemma run_second_order_valid (f : user_fn) (argnum : Z) (delta : Qc)
    (args : list pyarg) (i j : list Z) (kw : kwargs) (a : pyarg) :
  0 <= argnum -> nth_error args (Z.to_nat argnum) = Some a ->
  (0 < delta)%Qc -> wf_ndarray (np_array a) ->
  valid_index (shape (np_array a)) i -> valid_index (shape (np_array a)) j ->
  let x := np_array a in
  let k := Z.to_nat argnum in
  fst (run f (_fd_second_order_centered argnum delta args (Some [i; j]) kw)) =
  Returned (if index_eqb i j
            then three_point f args k kw x delta (ravel (shape x) i)
            else four_point f args k kw x delta
                            (ravel (shape x) i) (ravel (shape x) j)).
Proof.
  intros Hk Ha Hd Hwf Hi Hj x k.
  rewrite (second_order_program _ _ _ _ _ kw _ Hk Ha Hd)
    by now apply valid_passes.
  pose proof (positive_nonzero _ Hd) as Hnz.
  destruct (index_eqb i j).
  - now apply run_fd_second_diagonal.
  - now apply run_fd_second_off_diagonal.
Qed.

(** ** Symmetry of the cross stencil *)

Lemma zip_with_swap (op1 op2 : Qc -> Qc -> Qc) (x s t : list Qc) :
  (forall a b c, op2 (op1 a b) c = op1 (op2 a c) b) ->
  zip_with op2 (zip_with op1 x s) t = zip_with op1 (zip_with op2 x t) s.
Proof.
  intros Hop. revert s t.
  induction x as [|x0 x IH]; intros [|s0 s] [|t0 t]; simpl;
    try reflexivity.
  now rewrite Hop, IH.
Qed.

Lemma np_add_add_swap (x s t : ndarray Qc) :
  np_add (np_add x s) t = np_add (np_add x t) s.
Proof.
  unfold np_add. cbn [shape data]. f_equal.
  apply zip_with_swap. intros a b c. ring.
Qed.

Lemma np_sub_add_swap (x s t : ndarray Qc) :
  np_add (np_sub x s) t = np_sub (np_add x t) s.
Proof.
  unfold np_add, np_sub. cbn [shape data]. f_equal.
  apply (zip_with_swap Qcminus Qcplus). intros a b c. ring.
Qed.

Lemma np_sub_sub_swap (x s t : ndarray Qc) :
  np_sub (np_sub x s) t = np_sub (np_sub x t) s.
Proof.
  unfold np_sub. cbn [shape data]. f_equal.
  apply zip_with_swap. intros a b c. ring.
Qed.

Lemma four_point_sym (f : user_fn) (args : list pyarg) (k : nat) (kw : kwargs)
    (x : nparray) (delta : Qc) (p q : nat) :
  four_point f args k kw x delta q p = four_point f args k kw x delta p q.
Proof.
  unfold four_point, np_plus, np_minus. cbv zeta. cbn [dtype_of values].
  rewrite (np_add_add_swap x (shift_at x q (delta / two)%Qc)).
  rewrite (np_sub_add_swap x (shift_at x q (delta / two)%Qc)).
  rewrite <- (np_sub_add_swap x (shift_at x p (delta / two)%Qc)).
  rewrite (np_sub_sub_swap x (shift_at x q (delta / two)%Qc)).
  unfold Qcdiv. ring.
Qed.

(** ** Negative components *)

Lemma from_end_valid (shp : list nat) (ix : list Z) :
  valid_index shp ix ->
  in_bounds shp (from_end shp ix) /\
  ravel shp (from_end shp ix) = ravel shp ix.
Proof.
  induction 1 as [|c n cs s Hc _ [IHb IHr]]; simpl.
  - split; [constructor | reflexivity].
  - assert (Hmod : c mod Z.of_nat n = if c <? 0 then c + Z.of_nat n else c).
    { destruct (c <? 0) eqn:E.
      - apply Z.ltb_lt in E. symmetry.
        apply (Z.mod_unique_pos c (Z.of_nat n) (-1)); lia.
      - apply Z.ltb_ge in E. apply Z.mod_small. lia. }
    rewrite <- Hmod, Zmod_mod, IHr. split; [|reflexivity].
    constructor; [apply Z.mod_pos_bound; lia | exact IHb].
Qed.

Lemma fill_gradient_from_end (entry : nat -> Qc) (shp : list nat)
    (idx : list (list Z)) (g : ndarray pyobj) :
  Forall (valid_index shp) idx ->
  fill_gradient entry shp (map (from_end shp) idx) g =
  fill_gradient entry shp idx g.
Proof.
  intros H. revert g. induction H as [|i rest Hi _ IH]; intros g;
    [reflexivity|].
  cbn [map]. rewrite !fill_gradient_cons, IH.
  now destruct (from_end_valid _ _ Hi) as [_ ->].
Qed.

Lemma first_calls_from_end (args : list pyarg) (k : nat) (kw : kwargs)
    (x : nparray) (delta : Qc) (idx : list (list Z)) :
  Forall (valid_index (shape x)) idx ->
  flat_map (fun i => first_calls args k kw x delta (ravel (shape x) i))
           (map (from_end (shape x)) idx) =
  flat_map (fun i => first_calls args k kw x delta (ravel (shape x) i)) idx.
Proof.
  induction 1 as [|i rest Hi _ IH]; [reflexivity|].
  cbn [map flat_map]. rewrite IH.
  now destruct (from_end_valid _ _ Hi) as [_ ->].
Qed.

(** ** [finite_diff] *)

Lemma run_finite_diff_scalar (F : user_fn) (q : Qc) (i : option Z) (delta : Qc) :
  delta <> Q2Qc 0 ->
  run F (finite_diff (PyFloat q) i delta) =
  (Returned ((F [PyFloat (q + delta / two)%Qc] []
              - F [PyFloat (q - delta / two)%Qc] []) / delta)%Qc,
   [([PyFloat (q + delta / two)%Qc], []);
    ([PyFloat (q - delta / two)%Qc], [])]).
Proof.
  intros Hd. unfold finite_diff, finite_diff_scalar, call.
  cbn [bind run fst snd].
  rewrite py_pow_neg_nonzero by exact Hd. cbn [bind run fst snd].
  now rewrite half_step_r, times_inverse.
Qed.

(** An integer [x] is perturbed as the float of its value. *)
Lemma finite_diff_integer (z : Z) (i : option Z) (delta : Qc) :
  finite_diff (PyInteger z) i delta = finite_diff (PyFloat (Z2Qc z)) i delta.
Proof. reflexivity. Qed.

(** On an array, once the index is accepted and located: the perturbation
    holds the half step, as the dtype of [a] stores it, on the elements of
    [a[k]]. *)
Lemma run_finite_diff_located (F : user_fn) (x : pyarg) (a : nparray) (k : Z)
    (delta : Qc) (off cnt : nat) :
  finite_diff x (Some k) delta =
  (points <- finite_diff_array a (Some k) delta ;;
   fp <- call [fst points] [] ;;
   fm <- call [snd points] [] ;;
   inv <- py_pow_neg delta 1 ;;
   Ret ((fp - fm) * inv)%Qc) ->
  0 <= k < Z.of_nat (size a) ->
  locate (shape a) [k] = Some (off, cnt) ->
  delta <> Q2Qc 0 ->
  let d := mk_nparray (dtype_of a)
             (mk_ndarray (shape a)
                (update_range (fun _ => np_cast (dtype_of a) (half * delta)%Qc)
                              off cnt (repeat (Q2Qc 0) (length (data a))))) in
  run F (finite_diff x (Some k) delta) =
  (Returned ((F [np_value (np_plus a d)] [] - F [np_value (np_minus a d)] [])
             / delta)%Qc,
   [([np_value (np_plus a d)], []); ([np_value (np_minus a d)], [])]).
Proof.
  intros -> Hk Hloc Hd d. unfold finite_diff_array.
  destruct (0 <=? k) eqn:E0; [|apply Z.leb_gt in E0; lia].
  destruct (k <? Z.of_nat (size a)) eqn:E1; [|apply Z.ltb_ge in E1; lia].
  cbn [andb]. unfold np_store, np_setitem.
  cbn [np_zeros_like values dtype_of shape data].
  rewrite Hloc. cbn [bind]. fold d. unfold call. cbn [bind run fst snd].
  rewrite py_pow_neg_nonzero by exact Hd. cbn [bind run fst snd].
  now rewrite times_inverse.
Qed.

Lemma run_finite_diff_vector (F : user_fn) (x : ndarray Qc) (n : nat) (i : Z)
    (delta : Qc) :
  shape x = [n] -> wf_ndarray x -> 0 <= i < Z.of_nat n ->
  delta <> Q2Qc 0 ->
  let d := unit_array (shape x) (Z.to_nat i) (delta / two)%Qc in
  run F (finite_diff (PyArray x) (Some i) delta) =
  (Returned ((F [PyArray (np_add x d)] [] - F [PyArray (np_sub x d)] [])
             / delta)%Qc,
   [([PyArray (np_add x d)], []); ([PyArray (np_sub x d)], [])]).
Proof.
  intros Hshape Hwf Hi Hd d.
  assert (Hsize : size x = n) by (unfold size; rewrite Hshape; simpl; lia).
  assert (Hv : valid_index (shape x) [i])
    by (rewrite Hshape; repeat constructor; lia).
  assert (Hr : ravel (shape x) [i] = Z.to_nat i).
  { rewrite Hshape. simpl. rewrite Z.mod_small by lia. lia. }
  rewrite (run_finite_diff_located F (PyArray x) (np_array (PyArray x)) i
             delta (Z.to_nat i) 1 eq_refl)
    by (exact Hd
        || (cbn [np_array values]; rewrite Hsize; exact Hi)
        || (cbn [np_array values];
            destruct (locate_valid _ _ Hv) as [-> _]; now rewrite Hr)).
  cbn [np_array values dtype_of np_cast].
  rewrite update_range_set_zeros, half_step, Hwf.
  fold (unit_array (shape x) (Z.to_nat i) (delta / two)%Qc). fold d.
  unfold np_value, np_plus, np_minus, py_of_array, np_add, np_sub.
  cbn [values dtype_of shape data]. now rewrite Hshape.
Qed.

(** ** Calls that fail before the stencils *)

Ltac raised := cbn [bind]; eexists; reflexivity.

Lemma target_getitem (args : list pyarg) (argnum : Z) (a : pyarg) :
  py_getitem args argnum = Some a -> target args argnum = Ret (np_array a).
Proof. intros H. unfold target. now rewrite H. Qed.

Lemma target_cases (args : list pyarg) (argnum : Z) :
  (exists a, py_getitem args argnum = Some a /\
             target args argnum = Ret (np_array a)) \/
  target args argnum = Raise IndexError.
Proof.
  unfold target. destruct (py_getitem args argnum) as [a|]; [left|right];
    eauto.
Qed.

Lemma first_order_bad_idx (argnum : Z) (delta : Qc) (args : list pyarg)
    (idx : list (list Z)) (kw : kwargs) (a : pyarg) :
  py_getitem args argnum = Some a ->
  Exists (bad_index (shape (np_array a))) idx ->
  exists e, _fd_first_order_centered argnum delta args (Some idx) kw =
            Raise (ValueError e).
Proof.
  intros Ha Hbad. unfold _fd_first_order_centered.
  destruct (check_argnum_delta_cases argnum delta args) as [-> | [e ->]];
    [|now exists e].
  cbn [bind]. rewrite (target_getitem _ _ _ Ha). cbn [bind].
  destruct (check_idx_bad _ _ Hbad) as [e ->]. now exists e.
Qed.

Lemma second_order_bad_idx (argnum : Z) (delta : Qc) (args : list pyarg)
    (idx : list (list Z)) (kw : kwargs) (a : pyarg) :
  py_getitem args argnum = Some a ->
  Exists (bad_index (shape (np_array a))) idx \/ (2 < length idx)%nat ->
  exists e, _fd_second_order_centered argnum delta args (Some idx) kw =
            Raise (ValueError e).
Proof.
  intros Ha Hbad. unfold _fd_second_order_centered.
  destruct (check_argnum_delta_cases argnum delta args) as [-> | [e ->]];
    [|now exists e].
  cbn [bind]. rewrite (target_getitem _ _ _ Ha). cbn [bind].
  destruct (2 <? length idx)%nat eqn:E; [cbn [bind]; eauto|].
  apply Nat.ltb_ge in E. destruct Hbad as [Hbad | Hlen]; [|lia].
  destruct (check_idx_bad _ _ Hbad) as [e ->]. now exists e.
Qed.

Lemma second_order_needs_two (argnum : Z) (delta : Qc) (args : list pyarg)
    (idx : list (list Z)) (kw : kwargs) :
  length idx <> 2%nat ->
  exists e, _fd_second_order_centered argnum delta args (Some idx) kw =
            Raise e.
Proof.
  intros Hlen. unfold _fd_second_order_centered.
  destruct (check_argnum_delta_cases argnum delta args) as [-> | [e ->]];
    [|raised].
  cbn [bind].
  destruct (target_cases args argnum) as [(a & _ & ->) | ->]; [|raised].
  cbn [bind].
  destruct (2 <? length idx)%nat eqn:E; [raised|].
  apply Nat.ltb_ge in E.
  destruct (check_idx_cases (np_array a) idx) as [-> | (t & _ & [-> | ->])];
    [|raised..].
  cbn [bind].
  destruct idx as [|i [|j [|k rest]]]; simpl in *;
    try raised; exfalso; lia.
Qed.

Lemma run_raise {A} (f : user_fn) (p : prog A) (e : exn) :
  p = Raise e -> run f p = (Raised e, []).
Proof. now intros ->. Qed.

Ltac qc_neq :=
  let H := fresh in
  intros H; apply (f_equal this) in H; vm_compute in H; discriminate H.

Ltac qc_eq := apply Qc_is_canon; vm_compute; reflexivity.

Lemma argnum_above_rejected (f : user_fn) (argnum : Z) (delta : Qc)
    (args : list pyarg) (idx : option (list (list Z))) (kw : kwargs) :
  argnum > Z.of_nat (length args) - 1 ->
  run f (_fd_first_order_centered argnum delta args idx kw) =
  (Raised (ValueError (ArgnumOutOfRange (Z.of_nat (length args) - 1) argnum)),
   []) /\
  run f (_fd_second_order_centered argnum delta args idx kw) =
  (Raised (ValueError (ArgnumOutOfRange (Z.of_nat (length args) - 1) argnum)),
   []).
Proof.
  intros Ha. unfold _fd_first_order_centered, _fd_second_order_centered.
  rewrite (check_argnum_above _ delta _ Ha). split; reflexivity.
Qed.

Lemma argnum_below_raises (f : user_fn) (argnum : Z) (delta : Qc)
    (args : list pyarg) (idx : option (list (list Z))) (kw : kwargs) :
  argnum < - Z.of_nat (length args) -> (0 < delta)%Qc ->
  run f (_fd_first_order_centered argnum delta args idx kw) =
  (Raised IndexError, []) /\
  run f (_fd_second_order_centered argnum delta args idx kw) =
  (Raised IndexError, []).
Proof.
  intros Ha Hd. unfold _fd_first_order_centered, _fd_second_order_centered.
  rewrite check_argnum_delta_ok by (exact Hd || lia).
  unfold target. rewrite py_getitem_below by exact Ha. split; reflexivity.
Qed.

(** The slots of the gradient that were not requested keep the integer 0. *)
Lemma first_order_other_slots (f : user_fn) (argnum : Z) (delta : Qc)
    (args : list pyarg) (idx : list (list Z)) (kw : kwargs) (a : pyarg)
    (p : nat) :
  0 <= argnum -> nth_error args (Z.to_nat argnum) = Some a ->
  (0 < delta)%Qc -> wf_ndarray (np_array a) ->
  Forall (valid_index (shape (np_array a))) idx ->
  (forall i, In i idx -> ravel (shape (np_array a)) i <> p) ->
  (p < size (np_array a))%nat ->
  exists g,
    fst (run f (_fd_first_order_centered argnum delta args (Some idx) kw)) =
    Returned g /\
    nth_error (data g) p = Some (PyInt 0).
Proof.
  intros Hk Ha Hd Hwf Hidx Hp Hlt.
  rewrite (run_first_order_valid f argnum delta args (Some idx) kw a
             Hk Ha Hd Hwf)
    by (intros l E; injection E as <-; exact Hidx).
  eexists. split; [reflexivity|].
  rewrite fill_gradient_miss by exact Hp. simpl.
  apply nth_error_repeat. unfold wf_ndarray in Hwf. lia.
Qed.

(** * The claims *)

(** ** C1: validation of the step size *)

(** C1, counterexample: [finite_diff] has no check of [delta].  Called on the
    scalar 3 with [delta = -1 <= 0] it does not fail: it evaluates [F] twice
    and returns a value. *)
Lemma finite_diff_accepts_negative_delta :
  (Q2Qc (-1) <= 0)%Qc /\
  fst (run sum_first (finite_diff (PyFloat (Q2Qc 3)) None (Q2Qc (-1)))) =
  Returned (Q2Qc 1) /\
  length (snd (run sum_first
                   (finite_diff (PyFloat (Q2Qc 3)) None (Q2Qc (-1))))) = 2%nat.
Proof.
  split; [unfold Qcle, Qle; simpl; lia|].
  rewrite run_finite_diff_scalar by qc_neq. cbn [fst snd length].
  split; [f_equal; qc_eq | reflexivity].
Qed.

(** C1, as amended: [_fd_first_order_centered] and
    [_fd_second_order_centered] validate [delta > 0] eagerly: for every
    [delta <= 0] the call fails with a value error (on [argnum] when
    [argnum > len(args) - 1], on [delta] otherwise) and the user function is
    not evaluated.  [finite_diff] does not validate [delta]: on a scalar [x]
    and a negative [delta] it evaluates [F] twice and returns the centered
    difference. *)
Theorem delta_validated_before_evaluation (f : user_fn) (argnum : Z)
    (delta : Qc) (args : list pyarg) (idx : option (list (list Z)))
    (kw : kwargs) :
  (delta <= 0)%Qc ->
  run f (_fd_first_order_centered argnum delta args idx kw) =
  (Raised (ValueError
             (if argnum >? Z.of_nat (length args) - 1
              then ArgnumOutOfRange (Z.of_nat (length args) - 1) argnum
              else DeltaNotPositive delta)), []) /\
  run f (_fd_second_order_centered argnum delta args idx kw) =
  (Raised (ValueError
             (if argnum >? Z.of_nat (length args) - 1
              then ArgnumOutOfRange (Z.of_nat (length args) - 1) argnum
              else DeltaNotPositive delta)), []) /\
  (delta <> Q2Qc 0 ->
   forall (q : Qc) (i : option Z),
     run f (finite_diff (PyFloat q) i delta) =
     (Returned ((f [PyFloat (q + delta / two)%Qc] []
                 - f [PyFloat (q - delta / two)%Qc] []) / delta)%Qc,
      [([PyFloat (q + delta / two)%Qc], []);
       ([PyFloat (q - delta / two)%Qc], [])])).
Proof.
  intros Hd. unfold _fd_first_order_centered, _fd_second_order_centered.
  rewrite (check_delta_nonpositive argnum delta args Hd).
  repeat split. intros Hnz q i. now apply run_finite_diff_scalar.
Qed.

Lemma delta_validated_before_evaluation_witness :
  run sum_first
      (_fd_first_order_centered 0 (Q2Qc (-1)) [PyFloat (Q2Qc 3)] None []) =
  (Raised (ValueError (DeltaNotPositive (Q2Qc (-1)))), []).
Proof.
  destruct (delta_validated_before_evaluation
              sum_first 0 (Q2Qc (-1)) [PyFloat (Q2Qc 3)] None [])
    as [H _].
  - unfold Qcle, Qle; simpl; lia.
  - exact H.
Defined.

(** ** C2: validation of the argument number *)

(** C2, evaluation at the failing input: the check of [argnum] has no lower
    bound.  With [argnum = -1] and the single positional argument 1.0 neither
    operator raises a value error: each evaluates the user function, with two
    positional arguments (the shifted copy followed by all of [args]). *)
Theorem negative_argnum_reaches_f (f : user_fn) :
  (exists g c1 c2,
     run f (_fd_first_order_centered (-1) (Q2Qc (1 # 100))
                                     [PyFloat (Q2Qc 1)] None []) =
     (Returned g, [c1; c2]) /\
     length (fst c1) = 2%nat /\ length (fst c2) = 2%nat) /\
  (exists v c1 c2 c3,
     run f (_fd_second_order_centered (-1) (Q2Qc (1 # 100))
                                      [PyFloat (Q2Qc 1)] None []) =
     (Returned v, [c1; c2; c3]) /\
     length (fst c1) = 2%nat /\ length (fst c2) = 2%nat /\
     length (fst c3) = 2%nat).
Proof.
  split.
  - do 3 eexists. split; [reflexivity|]. split; reflexivity.
  - do 4 eexists. split; [reflexivity|]. repeat split; reflexivity.
Qed.

(** ** C3: the stencil of [finite_diff] *)




(** ** C4: the stencils of the second-order operator *)

(** C4, counterexample: on the vector [1, 2] the pair [idx = [(-3,), (-3,)]]
    passes the validation (which has no lower bound), [argnum = 0] is valid
    and [delta = 1 > 0], but no value is returned: indexing the shift raises
    an index error.  And on the integer 2, with [f(y) = y^2],
    [idx = [(), ()]] and [delta = 1/2 > 0], the shift is an integer array in
    which the step is stored as 0: [f] is evaluated three times at 2 and the
    call returns 0, where the stencil of the claim, with a shift of magnitude
    [delta], is [(f(5/2) - 2*f(2) + f(3/2)) / delta^2 = 2]. *)
Lemma second_order_index_below_range :
  check_idx ex_vector [[-3]; [-3]] = Ret tt /\
  (0 < Q2Qc 1)%Qc /\
  _fd_second_order_centered 0 (Q2Qc 1) [PyArray ex_vector]
                            (Some [[-3]; [-3]]) [] =
  Raise IndexError /\
  check_idx (np_array (PyInteger 2)) [[]; []] = Ret tt /\
  (0 < half)%Qc /\
  run (quadratic (Q2Qc 1) (Q2Qc 0) (Q2Qc 0) 0)
      (_fd_second_order_centered 0 half [PyInteger 2] (Some [[]; []]) []) =
  (Returned (Q2Qc 0),
   [([PyInteger 2], []);
    ([PyIntArray (mk_ndarray [] [2])], []);
    ([PyInteger 2], [])]) /\
  ((quadratic (Q2Qc 1) (Q2Qc 0) (Q2Qc 0) 0 [PyFloat (Q2Qc 2 + half)%Qc] []
    - two * quadratic (Q2Qc 1) (Q2Qc 0) (Q2Qc 0) 0 [PyFloat (Q2Qc 2)] []
    + quadratic (Q2Qc 1) (Q2Qc 0) (Q2Qc 0) 0 [PyFloat (Q2Qc 2 - half)%Qc] [])
   / half ^ 2)%Qc = Q2Qc 2.
Proof.
  split; [reflexivity|]. split; [reflexivity|]. split; [reflexivity|].
  split; [reflexivity|]. split; [reflexivity|]. split.
  - vm_compute. reflexivity.
  - qc_eq.
Qed.

(** C4, as amended: for every valid [argnum], [delta > 0], float-valued
    [args[argnum]] (a Python float or a float array) and [idx = [i, j]] that
    passes the validation and has no component below [-size] of its axis,
    [_fd_second_order_centered] returns a single value: when [i == j],
    [(f(x+shift) - 2*f(x) + f(x-shift)) / delta^2] with a shift of magnitude
    [delta] at index [i]; when [i != j],
    [(f(x+si+sj) - f(x-si+sj) - f(x+si-sj) + f(x-si-sj)) / delta^2] with
    half steps [si] at [i] and [sj] at [j]; the other positional and keyword
    arguments are passed to [f] unchanged.  The shifts of the stencils are
    float arrays that hold the step itself (first part). *)
Theorem second_order_stencil_values (f : user_fn) (argnum : Z) (delta : Qc)
    (args : list pyarg) (i j : list Z) (kw : kwargs) (a : pyarg) :
  0 <= argnum -> nth_error args (Z.to_nat argnum) = Some a ->
  (0 < delta)%Qc -> wf_ndarray (np_array a) ->
  dtype_of (np_array a) = Float64 ->
  valid_index (shape (np_array a)) i -> valid_index (shape (np_array a)) j ->
  (forall p v, shift_at (np_array a) p v =
               mk_nparray Float64 (unit_array (shape (np_array a)) p v)) /\
  (i = j ->
   fst (run f (_fd_second_order_centered argnum delta args (Some [i; j]) kw)) =
   Returned (three_point f args (Z.to_nat argnum) kw (np_array a) delta
                         (ravel (shape (np_array a)) i))) /\
  (i <> j ->
   fst (run f (_fd_second_order_centered argnum delta args (Some [i; j]) kw)) =
   Returned (four_point f args (Z.to_nat argnum) kw (np_array a) delta
                        (ravel (shape (np_array a)) i)
                        (ravel (shape (np_array a)) j))).
Proof.
  intros Hk Ha Hd Hwf Hfl Hi Hj.
  split; [intros p v; now apply shift_at_float|].
  rewrite (run_second_order_valid f _ _ _ _ _ kw _ Hk Ha Hd Hwf Hi Hj).
  split; intros Hij.
  - apply index_eqb_eq in Hij. now rewrite Hij.
  - destruct (index_eqb i j) eqn:E; [|reflexivity].
    now apply index_eqb_eq in E.
Qed.

Lemma second_order_stencil_values_witness :
  fst (run sum_first
           (_fd_second_order_centered 0 (Q2Qc 1) [PyArray ex_vector]
                                      (Some [[0]; [-1]]) [])) =
  Returned (four_point sum_first [PyArray ex_vector] (Z.to_nat 0) []
                       (np_array (PyArray ex_vector)) (Q2Qc 1)
                       (ravel (shape (np_array (PyArray ex_vector))) [0])
                       (ravel (shape (np_array (PyArray ex_vector))) [-1])).
Proof.
  destruct (second_order_stencil_values
              sum_first 0 (Q2Qc 1) [PyArray ex_vector] [0] [-1] []
              (PyArray ex_vector)) as (_ & _ & H).
  - lia.
  - reflexivity.
  - reflexivity.
  - reflexivity.
  - reflexivity.
  - repeat constructor; simpl; lia.
  - repeat constructor; simpl; lia.
  - apply H. discriminate.
Defined.

(** ** C5: the gradient of the first-order operator *)

(** C5, counterexample: on the integer array [np.array([1, 2])], with [f]
    the sum of the elements, [argnum = 0], [delta = 1 > 0] and the default
    [idx], the shift is an integer array in which the half step is stored
    as 0.  [f] is evaluated four times at the unshifted [[1, 2]] and both
    entries of the gradient are 0, where the entry of the claim at index
    [(0,)], with a shift that holds [delta / 2], is
    [(f([3/2, 2]) - f([1/2, 2])) / delta = 1]. *)
Lemma first_order_integer_array :
  (0 < Q2Qc 1)%Qc /\
  run sum_first
      (_fd_first_order_centered 0 (Q2Qc 1) [PyIntArray ex_int_vector] None []) =
  (Returned (mk_ndarray [2%nat] [PyNum (Q2Qc 0); PyNum (Q2Qc 0)]),
   [([PyIntArray ex_int_vector], []); ([PyIntArray ex_int_vector], []);
    ([PyIntArray ex_int_vector], []); ([PyIntArray ex_int_vector], [])]) /\
  ((sum_first [PyArray (np_add ex_vector
                          (unit_array [2%nat] 0 (Q2Qc 1 / two)%Qc))] []
    - sum_first [PyArray (np_sub ex_vector
                            (unit_array [2%nat] 0 (Q2Qc 1 / two)%Qc))] [])
   / Q2Qc 1)%Qc = Q2Qc 1.
Proof.
  split; [reflexivity|]. split.
  - vm_compute. reflexivity.
  - qc_eq.
Qed.

(** C5, as amended: for every valid [argnum], [delta > 0], float-valued
    [args[argnum]] (a Python float or a float array) and valid [idx] (by
    default every multi-index of the shape of [args[argnum]]),
    [_fd_first_order_centered] returns an object array of the shape of
    [args[argnum]] whose entry at each requested index is
    [(f(x+shift) - f(x-shift)) / delta], with [shift] zero everywhere except
    [delta/2] at that index (first part: the shift is a float array that
    holds the step itself), the other positional and keyword arguments being
    passed to [f] unchanged. *)
Theorem first_order_gradient (f : user_fn) (argnum : Z) (delta : Qc)
    (args : list pyarg) (idx : option (list (list Z))) (kw : kwargs)
    (a : pyarg) :
  0 <= argnum -> nth_error args (Z.to_nat argnum) = Some a ->
  (0 < delta)%Qc -> wf_ndarray (np_array a) ->
  dtype_of (np_array a) = Float64 ->
  (forall l, idx = Some l -> Forall (valid_index (shape (np_array a))) l) ->
  (forall p v, shift_at (np_array a) p v =
               mk_nparray Float64 (unit_array (shape (np_array a)) p v)) /\
  exists g : ndarray pyobj,
    fst (run f (_fd_first_order_centered argnum delta args idx kw)) = Returned g /\
    shape g = shape (np_array a) /\
    wf_ndarray g /\
    forall i, requested (np_array a) idx i ->
      np_item g i =
      Some (PyNum (first_difference f args (Z.to_nat argnum) kw (np_array a)
                                    delta (ravel (shape (np_array a)) i))).
Proof.
  intros Hk Ha Hd Hwf Hfl Hidx.
  split; [intros p v; now apply shift_at_float|].
  now apply first_order_entries.
Qed.

Lemma first_order_gradient_witness :
  exists g : ndarray pyobj,
    fst (run sum_first
             (_fd_first_order_centered 0 (Q2Qc 1) [PyArray ex_vector]
                                       (Some [[1]; [0]]) [])) = Returned g /\
    shape g = shape (np_array (PyArray ex_vector)) /\
    wf_ndarray g /\
    forall i, requested (np_array (PyArray ex_vector)) (Some [[1]; [0]]) i ->
      np_item g i =
      Some (PyNum (first_difference sum_first [PyArray ex_vector] (Z.to_nat 0)
                     [] (np_array (PyArray ex_vector)) (Q2Qc 1)
                     (ravel (shape (np_array (PyArray ex_vector))) i))).
Proof.
  destruct (first_order_gradient sum_first 0 (Q2Qc 1) [PyArray ex_vector]
              (Some [[1]; [0]]) [] (PyArray ex_vector)) as [_ H].
  - lia.
  - reflexivity.
  - reflexivity.
  - reflexivity.
  - reflexivity.
  - intros l E. injection E as <-. repeat constructor; simpl; lia.
  - exact H.
Defined.

(** ** C6: validation of a supplied [idx] *)

(** C6: for both operators, if a supplied [idx] contains a tuple whose length
    differs from the dimensionality of [args[argnum]], or a tuple with a
    component above its axis's size - 1, or (second order) more than two
    tuples, the call raises a value error and the user function is never
    evaluated. *)
Theorem bad_idx_rejected_before_evaluation (f : user_fn) (argnum : Z)
    (delta : Qc) (args : list pyarg) (idx : list (list Z)) (kw : kwargs)
    (a : pyarg) :
  py_getitem args argnum = Some a ->
  (Exists (bad_index (shape (np_array a))) idx ->
   exists e,
     run f (_fd_first_order_centered argnum delta args (Some idx) kw) =
     (Raised (ValueError e), [])) /\
  (Exists (bad_index (shape (np_array a))) idx \/ (2 < length idx)%nat ->
   exists e,
     run f (_fd_second_order_centered argnum delta args (Some idx) kw) =
     (Raised (ValueError e), [])).
Proof.
  intros Ha. split; intros Hbad.
  - destruct (first_order_bad_idx argnum delta args idx kw a Ha Hbad) as [e He].
    exists e. now apply run_raise.
  - destruct (second_order_bad_idx argnum delta args idx kw a Ha Hbad) as [e He].
    exists e. now apply run_raise.
Qed.

Lemma bad_idx_rejected_before_evaluation_witness :
  exists e,
    run sum_first
        (_fd_first_order_centered 0 (Q2Qc 1) [PyArray ex_vector]
                                  (Some [[0]; [2]]) []) =
    (Raised (ValueError e), []).
Proof.
  destruct (bad_idx_rejected_before_evaluation
              sum_first 0 (Q2Qc 1) [PyArray ex_vector] [[0]; [2]] []
              (PyArray ex_vector)) as [H _].
  - reflexivity.
  - apply H. apply Exists_cons_tl, Exists_cons_hd. right.
    exists 0%nat, 2, 2%nat. repeat split.
Defined.

(** ** C7: linear functions *)

(** C7, counterexample: on the integer 3, with [f(x) = 5 * x],
    [argnum = 0], [delta = 1/100 > 0] and the default [idx], the half step is
    stored as 0 in the integer shift: [f] is evaluated twice at 3 and the
    entry of the gradient is 0, not the coefficient 5. *)
Lemma linear_function_integer_input :
  (0 < Q2Qc (1 # 100))%Qc /\
  run (linear [Q2Qc 5] 0)
      (_fd_first_order_centered 0 (Q2Qc (1 # 100)) [PyInteger 3] None []) =
  (Returned (mk_ndarray [] [PyNum (Q2Qc 0)]),
   [([PyInteger 3], []); ([PyInteger 3], [])]) /\
  Q2Qc 0 <> Q2Qc 5.
Proof.
  split; [reflexivity|]. split; [|qc_neq].
  vm_compute. reflexivity.
Qed.

(** C7, as amended: for the linear function [f(x) = a . x] of a
    float-valued argument at [argnum] ([a] the coefficients, one per element
    of [x]; a single coefficient for a scalar [x]),
    [_fd_first_order_centered] returns exactly the coefficient at every
    requested index, for every [delta > 0]. *)
Theorem linear_function_gradient (coeffs : list Qc) (argnum : Z) (delta : Qc)
    (args : list pyarg) (idx : option (list (list Z))) (kw : kwargs)
    (a : pyarg) :
  0 <= argnum -> nth_error args (Z.to_nat argnum) = Some a ->
  (0 < delta)%Qc -> wf_ndarray (np_array a) ->
  dtype_of (np_array a) = Float64 ->
  (forall l, idx = Some l -> Forall (valid_index (shape (np_array a))) l) ->
  exists g : ndarray pyobj,
    fst (run (linear coeffs (Z.to_nat argnum))
             (_fd_first_order_centered argnum delta args idx kw)) = Returned g /\
    forall i, requested (np_array a) idx i ->
      np_item g i =
      Some (PyNum (nth (ravel (shape (np_array a)) i) coeffs (Q2Qc 0))).
Proof.
  intros Hk Ha Hd Hwf Hfl Hidx.
  destruct (first_order_entries (linear coeffs (Z.to_nat argnum))
              argnum delta args idx kw a Hk Ha Hd Hwf Hidx)
    as (g & Hrun & _ & _ & Hent).
  exists g. split; [exact Hrun|]. intros i Hreq.
  rewrite (Hent i Hreq). do 2 f_equal.
  destruct (requested_valid _ _ _ Hidx Hreq) as [Hv _].
  apply first_difference_linear.
  - assert (Z.to_nat argnum < length args)%nat
      by (apply nth_error_Some; congruence). lia.
  - now apply positive_nonzero.
  - exact Hwf.
  - exact Hfl.
  - now destruct (locate_valid _ _ Hv).
Qed.

Lemma linear_function_gradient_witness :
  exists g : ndarray pyobj,
    fst (run (linear [Q2Qc 5] (Z.to_nat 0))
             (_fd_first_order_centered 0 (Q2Qc (1 # 100)) [PyFloat (Q2Qc 3)]
                                       None [])) = Returned g /\
    forall i, requested (np_array (PyFloat (Q2Qc 3))) None i ->
      np_item g i =
      Some (PyNum (nth (ravel (shape (np_array (PyFloat (Q2Qc 3)))) i)
                       [Q2Qc 5] (Q2Qc 0))).
Proof.
  apply (linear_function_gradient [Q2Qc 5] 0 (Q2Qc (1 # 100))
           [PyFloat (Q2Qc 3)] None [] (PyFloat (Q2Qc 3))).
  - lia.
  - reflexivity.
  - reflexivity.
  - reflexivity.
  - reflexivity.
  - intros l H. discriminate H.
Defined.

(** ** C8: symmetry of the cross stencil *)

(** C8: for every valid pair of distinct indices [i != j] and every
    [delta > 0], [_fd_second_order_centered] returns with [idx = [j, i]] the
    value it returns with [idx = [i, j]]. *)
Theorem cross_stencil_symmetric (f : user_fn) (argnum : Z) (delta : Qc)
    (args : list pyarg) (i j : list Z) (kw : kwargs) (a : pyarg) :
  0 <= argnum -> nth_error args (Z.to_nat argnum) = Some a ->
  (0 < delta)%Qc -> wf_ndarray (np_array a) ->
  valid_index (shape (np_array a)) i -> valid_index (shape (np_array a)) j ->
  i <> j ->
  fst (run f (_fd_second_order_centered argnum delta args (Some [j; i]) kw)) =
  fst (run f (_fd_second_order_centered argnum delta args (Some [i; j]) kw)).
Proof.
  intros Hk Ha Hd Hwf Hi Hj Hij.
  rewrite (run_second_order_valid f _ _ _ _ _ kw _ Hk Ha Hd Hwf Hi Hj).
  rewrite (run_second_order_valid f _ _ _ _ _ kw _ Hk Ha Hd Hwf Hj Hi).
  destruct (index_eqb i j) eqn:E; [now apply index_eqb_eq in E|].
  destruct (index_eqb j i) eqn:E'; [apply index_eqb_eq in E'; congruence|].
  f_equal. apply four_point_sym.
Qed.

Lemma cross_stencil_symmetric_witness :
  fst (run sum_first
           (_fd_second_order_centered 0 (Q2Qc 1) [PyArray ex_matrix]
                                      (Some [[1; 0]; [0; 1]]) [])) =
  fst (run sum_first
           (_fd_second_order_centered 0 (Q2Qc 1) [PyArray ex_matrix]
                                      (Some [[0; 1]; [1; 0]]) [])).
Proof.
  apply (cross_stencil_symmetric sum_first 0 (Q2Qc 1) [PyArray ex_matrix]
           [0; 1] [1; 0] [] (PyArray ex_matrix)).
  - lia.
  - reflexivity.
  - reflexivity.
  - reflexivity.
  - repeat constructor; simpl; lia.
  - repeat constructor; simpl; lia.
  - discriminate.
Defined.

(** ** C9: negative components of an index *)

(** C9, counterexample: on the vector [1, 2] the tuple [(-3,)] has the right
    length and a negative component, and is not rejected by the validation;
    but both operators raise: indexing the shift raises an index error. *)
Lemma negative_component_below_range_raises :
  length [-3] = ndim ex_vector /\
  check_idx ex_vector [[-3]] = Ret tt /\
  _fd_first_order_centered 0 (Q2Qc 1) [PyArray ex_vector] (Some [[-3]]) [] =
  Raise IndexError /\
  _fd_second_order_centered 0 (Q2Qc 1) [PyArray ex_vector]
                            (Some [[-3]; [0]]) [] =
  Raise IndexError.
Proof. repeat split. Qed.

(** C9, as amended: the validation of a supplied [idx] checks the upper bound
    only: tuples of the right length with no component above size - 1 pass
    it whatever the sign of their components.  When moreover no component is
    below [-size] of its axis (valid [argnum], [delta > 0]), the operators do
    not raise (the second-order one on two tuples), and a negative component
    [c] addresses position [size + c] of its axis: the first-order operator
    runs as on [idx] with those positions written out, and the second-order
    stencil is taken at them. *)
Theorem negative_components_wrap (f : user_fn) (argnum : Z) (delta : Qc)
    (args : list pyarg) (kw : kwargs) (a : pyarg) :
  0 <= argnum -> nth_error args (Z.to_nat argnum) = Some a ->
  (0 < delta)%Qc -> wf_ndarray (np_array a) ->
  (forall idx, Forall (passes_check (shape (np_array a))) idx ->
     check_idx (np_array a) idx = Ret tt) /\
  (forall idx, Forall (valid_index (shape (np_array a))) idx ->
     Forall (in_bounds (shape (np_array a)))
            (map (from_end (shape (np_array a))) idx) /\
     (exists g,
        fst (run f (_fd_first_order_centered argnum delta args (Some idx) kw)) =
        Returned g) /\
     run f (_fd_first_order_centered argnum delta args (Some idx) kw) =
     run f (_fd_first_order_centered argnum delta args
              (Some (map (from_end (shape (np_array a))) idx)) kw)) /\
  (forall i j,
     valid_index (shape (np_array a)) i -> valid_index (shape (np_array a)) j ->
     in_bounds (shape (np_array a)) (from_end (shape (np_array a)) i) /\
     in_bounds (shape (np_array a)) (from_end (shape (np_array a)) j) /\
     fst (run f (_fd_second_order_centered argnum delta args (Some [i; j]) kw)) =
     Returned
       (if index_eqb i j
        then three_point f args (Z.to_nat argnum) kw (np_array a) delta
               (ravel (shape (np_array a))
                      (from_end (shape (np_array a)) i))
        else four_point f args (Z.to_nat argnum) kw (np_array a) delta
               (ravel (shape (np_array a))
                      (from_end (shape (np_array a)) i))
               (ravel (shape (np_array a))
                      (from_end (shape (np_array a)) j)))).
Proof.
  intros Hk Ha Hd Hwf. split; [|split].
  - intros idx. apply check_idx_ok.
  - intros idx Hidx.
    assert (Hb : Forall (in_bounds (shape (np_array a)))
                        (map (from_end (shape (np_array a))) idx)).
    { apply Forall_map. eapply Forall_impl; [|exact Hidx].
      intros i Hi. now destruct (from_end_valid _ _ Hi). }
    split; [exact Hb|].
    rewrite (run_first_order_valid f argnum delta args (Some idx) kw a
               Hk Ha Hd Hwf)
      by (intros l E; injection E as <-; exact Hidx).
    rewrite (run_first_order_valid f argnum delta args
               (Some (map (from_end (shape (np_array a))) idx)) kw a
               Hk Ha Hd Hwf).
    + split; [eexists; reflexivity|].
      now rewrite fill_gradient_from_end, first_calls_from_end.
    + intros l E. injection E as <-.
      eapply Forall_impl; [|exact Hb]. intros i. apply in_bounds_valid.
  - intros i j Hi Hj.
    destruct (from_end_valid _ _ Hi) as [Hbi ->].
    destruct (from_end_valid _ _ Hj) as [Hbj ->].
    split; [exact Hbi|]. split; [exact Hbj|].
    now apply run_second_order_valid.
Qed.

Lemma negative_components_wrap_witness :
  run sum_first
      (_fd_first_order_centered 0 (Q2Qc 1) [PyArray ex_vector]
                                (Some [[-1]; [-2]]) []) =
  run sum_first
      (_fd_first_order_centered 0 (Q2Qc 1) [PyArray ex_vector]
         (Some (map (from_end (shape (np_array (PyArray ex_vector))))
                    [[-1]; [-2]])) []).
Proof.
  destruct (negative_components_wrap
              sum_first 0 (Q2Qc 1) [PyArray ex_vector] [] (PyArray ex_vector))
    as (_ & H & _).
  - lia.
  - reflexivity.
  - reflexivity.
  - reflexivity.
  - apply H. repeat constructor; simpl; lia.
Defined.

(** ** C10: a supplied [idx] of one tuple *)

(** C10: a supplied [idx] must hold exactly two index tuples for
    [_fd_second_order_centered] to return a derivative.  An [idx] of a single
    tuple passes the check [len(idx) > 2] and the validation of its tuple,
    and the call then fails at [i, j = idx] with the unpacking error, which
    is none of the length and bounds errors of the validation; the user
    function is not evaluated and no derivative is returned. *)
Theorem single_tuple_fails_at_unpacking (f : user_fn) (argnum : Z)
    (delta : Qc) (args : list pyarg) (kw : kwargs) :
  (forall idx v,
     fst (run f (_fd_second_order_centered argnum delta args (Some idx) kw)) =
     Returned v ->
     length idx = 2%nat) /\
  (forall t a,
     0 <= argnum -> nth_error args (Z.to_nat argnum) = Some a ->
     (0 < delta)%Qc -> passes_check (shape (np_array a)) t ->
     (2 <? length [t])%nat = false /\
     check_idx (np_array a) [t] = Ret tt /\
     run f (_fd_second_order_centered argnum delta args (Some [t]) kw) =
     (Raised (ValueError (NotEnoughValuesToUnpack 2 1)), [])).
Proof.
  split.
  - intros idx v Hrun.
    destruct (Nat.eq_dec (length idx) 2) as [E | E]; [exact E|].
    destruct (second_order_needs_two argnum delta args idx kw E) as [e He].
    rewrite He in Hrun. discriminate Hrun.
  - intros t a Hk Ha Hd Ht.
    assert (Hc : check_idx (np_array a) [t] = Ret tt)
      by (apply check_idx_ok; repeat constructor; exact Ht).
    split; [reflexivity|]. split; [exact Hc|].
    unfold _fd_second_order_centered.
    destruct (target_valid _ _ _ Hk Ha) as [Htg Hle].
    rewrite (check_argnum_delta_ok _ _ _ Hle Hd), Htg. cbn [bind].
    cbn [length Nat.ltb Nat.leb]. rewrite Hc. reflexivity.
Qed.

Lemma single_tuple_fails_at_unpacking_witness :
  run sum_first
      (_fd_second_order_centered 0 (Q2Qc 1) [PyArray ex_vector]
                                 (Some [[1]]) []) =
  (Raised (ValueError (NotEnoughValuesToUnpack 2 1)), []).
Proof.
  destruct (single_tuple_fails_at_unpacking
              sum_first 0 (Q2Qc 1) [PyArray ex_vector] []) as [_ H].
  destruct (H [1] (PyArray ex_vector)) as (_ & _ & Hrun).
  - lia.
  - reflexivity.
  - reflexivity.
  - repeat constructor; simpl; lia.
  - exact Hrun.
Defined.

(** * Further properties of the finite-difference engine *)

(** ** [finite_diff]: validation of the index *)

Lemma finite_diff_array_bad_index (a : nparray) (i : option Z) (delta : Qc) :
  (forall k, i = Some k -> k < 0 \/ Z.of_nat (size a) <= k) ->
  finite_diff_array a i delta =
  Raise (ValueError (BadIndexI 0 (Z.of_nat (size a) - 1) i)).
Proof.
  intros Hi. unfold finite_diff_array. destruct i as [k|]; [|reflexivity].
  destruct (Hi k eq_refl) as [Hk | Hk].
  - destruct (0 <=? k) eqn:E; [apply Z.leb_le in E; lia | reflexivity].
  - destruct (k <? Z.of_nat (size a)) eqn:E; [apply Z.ltb_lt in E; lia|].
    now rewrite andb_false_r.
Qed.

Lemma finite_diff_bad_index (F : user_fn) (x : ndarray Qc) (i : option Z)
    (delta : Qc) :
  (forall k, i = Some k -> k < 0 \/ Z.of_nat (size x) <= k) ->
  run F (finite_diff (PyArray x) i delta) =
  (Raised (ValueError (BadIndexI 0 (Z.of_nat (size x) - 1) i)), []).
Proof.
  intros Hi. unfold finite_diff.
  now rewrite (finite_diff_array_bad_index (np_array (PyArray x)) i delta Hi).
Qed.

(** X1: for an array [x], [finite_diff] rejects [i = None] and every [i]
    outside [0, x.size - 1] with the value error that reports the range and
    [i]; [F] is not evaluated, whatever [delta]. *)
Theorem finite_diff_index_validated (F : user_fn) (x : ndarray Qc)
    (i : option Z) (delta : Qc) :
  (forall k, i = Some k -> k < 0 \/ Z.of_nat (size x) <= k) ->
  run F (finite_diff (PyArray x) i delta) =
  (Raised (ValueError (BadIndexI 0 (Z.of_nat (size x) - 1) i)), []).
Proof. apply finite_diff_bad_index. Qed.

Lemma finite_diff_index_validated_witness :
  run sum_first (finite_diff (PyArray ex_vector) (Some 2) (Q2Qc 1)) =
  (Raised (ValueError (BadIndexI 0 (Z.of_nat (size ex_vector) - 1) (Some 2))),
   []).
Proof.
  apply (finite_diff_index_validated sum_first ex_vector (Some 2) (Q2Qc 1)).
  intros k E. injection E as <-. right. simpl. lia.
Defined.

(** X2: the index that [finite_diff] validated against [x.size] is used on
    the first axis only: on a zero-dimensional array, and on an array whose
    first axis has no more than [i] elements, an accepted [i] makes [d[i]]
    raise an index error, before any evaluation of [F]. *)
Theorem finite_diff_index_beyond_first_axis (F : user_fn) (x : ndarray Qc)
    (k : Z) (delta : Qc) :
  0 <= k < Z.of_nat (size x) ->
  (shape x = [] \/ exists n s, shape x = n :: s /\ Z.of_nat n <= k) ->
  run F (finite_diff (PyArray x) (Some k) delta) = (Raised IndexError, []).
Proof.
  intros Hk Hshape. unfold finite_diff, finite_diff_array.
  cbn [np_array values].
  destruct (0 <=? k) eqn:E0; [|apply Z.leb_gt in E0; lia].
  destruct (k <? Z.of_nat (size x)) eqn:E1; [|apply Z.ltb_ge in E1; lia].
  cbn [andb]. unfold np_store, np_setitem.
  cbn [np_zeros_like values dtype_of shape].
  destruct Hshape as [-> | (n & s & -> & Hn)]; [reflexivity|].
  cbn [locate]. unfold wrap_axis.
  destruct (k <? 0) eqn:E2; [apply Z.ltb_lt in E2; lia|].
  rewrite E0. destruct (k <? Z.of_nat n) eqn:E3; [apply Z.ltb_lt in E3; lia|].
  reflexivity.
Qed.

Lemma finite_diff_index_beyond_first_axis_witness :
  run sum_first (finite_diff (PyArray ex_matrix) (Some 3) (Q2Qc 1)) =
  (Raised IndexError, []).
Proof.
  apply (finite_diff_index_beyond_first_axis sum_first ex_matrix 3 (Q2Qc 1)).
  - simpl. lia.
  - right. exists 2%nat, [2%nat]. split; [reflexivity | lia].
Defined.

(** ** [finite_diff]: the sign of the step, and quadratics *)

Lemma update_range_zeros_opp (v : Qc) (off cnt n : nat) :
  update_range (fun _ => (- v)%Qc) off cnt (repeat (Q2Qc 0) n) =
  map Qcopp (update_range (fun _ => v) off cnt (repeat (Q2Qc 0) n)).
Proof.
  assert (H0 : (- Q2Qc 0)%Qc = Q2Qc 0) by ring.
  revert off cnt. induction n as [|n IH]; intros off cnt; [reflexivity|].
  simpl. destruct off as [|off].
  - destruct cnt as [|cnt]; simpl.
    + rewrite H0. f_equal. clear IH.
      induction n as [|n IHn]; [reflexivity|]. simpl. now rewrite H0, <- IHn.
    + now rewrite IH.
  - simpl. now rewrite H0, IH.
Qed.

Lemma zip_plus_opp (x d : list Qc) :
  zip_with Qcplus x (map Qcopp d) = zip_with Qcminus x d.
Proof.
  revert d. induction x as [|x0 x IH]; intros [|d0 d]; simpl;
    try reflexivity.
  now rewrite IH.
Qed.

Lemma zip_minus_opp (x d : list Qc) :
  zip_with Qcminus x (map Qcopp d) = zip_with Qcplus x d.
Proof.
  revert d. induction x as [|x0 x IH]; intros [|d0 d]; simpl;
    try reflexivity.
  rewrite IH. f_equal. unfold Qcminus. now rewrite Qcopp_involutive.
Qed.

Lemma finite_diff_scalar_even (F : user_fn) (q : Qc) (i : option Z)
    (delta : Qc) :
  delta <> Q2Qc 0 ->
  fst (run F (finite_diff (PyFloat q) i (- delta)%Qc)) =
  fst (run F (finite_diff (PyFloat q) i delta)).
Proof.
  intros Hd.
  assert (Hd' : (- delta)%Qc <> Q2Qc 0).
  { intros E. apply Hd. rewrite <- (Qcopp_involutive delta), E. ring. }
  rewrite !run_finite_diff_scalar by assumption. cbn [fst].
  replace (q + - delta / two)%Qc with (q - delta / two)%Qc
    by (unfold Qcdiv; ring).
  replace (q - - delta / two)%Qc with (q + delta / two)%Qc
    by (unfold Qcdiv; ring).
  f_equal. field. now split.
Qed.

Lemma finite_diff_array_even (F : user_fn) (x : pyarg) (a : nparray)
    (i : option Z) (delta : Qc) :
  (forall i d, finite_diff x i d =
               (points <- finite_diff_array a i d ;;
                fp <- call [fst points] [] ;;
                fm <- call [snd points] [] ;;
                inv <- py_pow_neg d 1 ;;
                Ret ((fp - fm) * inv)%Qc)) ->
  delta <> Q2Qc 0 ->
  fst (run F (finite_diff x i (- delta)%Qc)) =
  fst (run F (finite_diff x i delta)).
Proof.
  intros Hx Hd.
  assert (Hd' : (- delta)%Qc <> Q2Qc 0).
  { intros E. apply Hd. rewrite <- (Qcopp_involutive delta), E. ring. }
  assert (Hbad : forall d,
    (forall k, i = Some k -> k < 0 \/ Z.of_nat (size a) <= k) ->
    run F (finite_diff x i d) =
    (Raised (ValueError (BadIndexI 0 (Z.of_nat (size a) - 1) i)), [])).
  { intros d Hi. now rewrite Hx, (finite_diff_array_bad_index a i d Hi). }
  destruct i as [k|]; [|now rewrite !Hbad by discriminate].
  destruct (Z_lt_ge_dec k 0) as [Hneg | Hpos];
    [now rewrite !Hbad by (intros k' E; injection E as <-; left; exact Hneg)|].
  destruct (Z_lt_ge_dec k (Z.of_nat (size a))) as [Hlt | Hge];
    [|now rewrite !Hbad by (intros k' E; injection E as <-; right; lia)].
  destruct (locate (shape a) [k]) as [[off cnt]|] eqn:Hloc.
  - rewrite !(run_finite_diff_located F x a k _ off cnt (Hx _ _))
      by (assumption || lia).
    cbn [fst].
    replace (half * - delta)%Qc with (- (half * delta))%Qc by ring.
    rewrite np_cast_opp, update_range_zeros_opp.
    unfold np_plus, np_minus, np_add, np_sub. cbn [values dtype_of shape data].
    rewrite zip_plus_opp, zip_minus_opp.
    f_equal. field. now split.
  - rewrite !Hx. unfold finite_diff_array.
    destruct (0 <=? k) eqn:E0; [|apply Z.leb_gt in E0; lia].
    destruct (k <? Z.of_nat (size a)) eqn:E1; [|apply Z.ltb_ge in E1; lia].
    cbn [andb]. unfold np_store, np_setitem.
    cbn [np_zeros_like values dtype_of shape].
    now rewrite Hloc.
Qed.

(** X3: the centered difference of [finite_diff] does not depend on the sign
    of the step: for every [x], [i] and [delta <> 0] the call with [-delta]
    has the outcome of the call with [delta] (the same value, or the same
    error). *)
Theorem finite_diff_even_in_delta (F : user_fn) (x : pyarg) (i : option Z)
    (delta : Qc) :
  delta <> Q2Qc 0 ->
  fst (run F (finite_diff x i (- delta)%Qc)) =
  fst (run F (finite_diff x i delta)).
Proof.
  intros Hd.
  destruct x as [q | a | z | a].
  - now apply finite_diff_scalar_even.
  - now apply (finite_diff_array_even F _ (np_array (PyArray a))).
  - rewrite !finite_diff_integer. now apply finite_diff_scalar_even.
  - now apply (finite_diff_array_even F _ (np_array (PyIntArray a))).
Qed.

Lemma finite_diff_even_in_delta_witness :
  fst (run sum_first (finite_diff (PyArray ex_vector) (Some 1) (- two)%Qc)) =
  fst (run sum_first (finite_diff (PyArray ex_vector) (Some 1) two)).
Proof.
  apply (finite_diff_even_in_delta sum_first (PyArray ex_vector) (Some 1) two).
  intros E. apply (f_equal this) in E. discriminate E.
Defined.

(** X4: on a scalar, [finite_diff] is exact for quadratic functions: for
    [F(y) = a*y^2 + b*y + c] it returns [2*a*x + b], the derivative at [x],
    for every step [delta <> 0]. *)
Theorem finite_diff_exact_on_quadratics (a b c q delta : Qc) (i : option Z) :
  delta <> Q2Qc 0 ->
  fst (run (quadratic a b c 0) (finite_diff (PyFloat q) i delta)) =
  Returned (two * a * q + b)%Qc.
Proof.
  intros Hd. rewrite run_finite_diff_scalar by exact Hd. cbn [fst].
  unfold quadratic. cbn [nth_error np_array data values].
  f_equal. rewrite two_sum. field. split; [discriminate | exact Hd].
Qed.

Lemma finite_diff_exact_on_quadratics_witness :
  fst (run (quadratic (Q2Qc 3) (Q2Qc 1) (Q2Qc 5) 0)
           (finite_diff (PyFloat (Q2Qc 2)) None (Q2Qc (1 # 100)))) =
  Returned (two * Q2Qc 3 * Q2Qc 2 + Q2Qc 1)%Qc.
Proof.
  apply (finite_diff_exact_on_quadratics
           (Q2Qc 3) (Q2Qc 1) (Q2Qc 5) (Q2Qc 2) (Q2Qc (1 # 100)) None).
  intros E. apply (f_equal this) in E. discriminate E.
Defined.

(** ** [_fd_first_order_centered]: evaluations and slots *)

Lemma ndindex_length (shp : list nat) :
  length (ndindex shp) = prod_shape shp.
Proof.
  induction shp as [|n s IH]; [reflexivity|].
  simpl. generalize 0%nat as start.
  induction n as [|n IHn]; intros start; [reflexivity|].
  simpl. rewrite length_app, length_map, IHn, IH. reflexivity.
Qed.

Lemma first_calls_length (args : list pyarg) (k : nat) (kw : kwargs)
    (x : nparray) (delta : Qc) (idx : list (list Z)) :
  length (flat_map (fun i => first_calls args k kw x delta (ravel (shape x) i))
                   idx) = (2 * length idx)%nat.
Proof.
  induction idx as [|i rest IH]; [reflexivity|].
  cbn [flat_map]. rewrite length_app, IH. simpl. lia.
Qed.

(** X5: on valid input [_fd_first_order_centered] evaluates [f] twice per
    index, in the order of [idx] (by default the row-major order of the
    multi-indices): at [x + shift], then at [x - shift], the other arguments
    unchanged.  A supplied [idx] of [n] tuples costs [2 * n] evaluations, the
    default one [2 * x.size]. *)
Theorem first_order_evaluations (f : user_fn) (argnum : Z) (delta : Qc)
    (args : list pyarg) (idx : option (list (list Z))) (kw : kwargs)
    (a : pyarg) :
  0 <= argnum -> nth_error args (Z.to_nat argnum) = Some a ->
  (0 < delta)%Qc -> wf_ndarray (np_array a) ->
  (forall l, idx = Some l -> Forall (valid_index (shape (np_array a))) l) ->
  snd (run f (_fd_first_order_centered argnum delta args idx kw)) =
  flat_map (fun i => first_calls args (Z.to_nat argnum) kw (np_array a) delta
                                 (ravel (shape (np_array a)) i))
           (match idx with
            | Some l => l
            | None => ndindex (shape (np_array a))
            end) /\
  length (snd (run f (_fd_first_order_centered argnum delta args idx kw))) =
  (2 * match idx with
       | Some l => length l
       | None => size (np_array a)
       end)%nat.
Proof.
  intros Hk Ha Hd Hwf Hidx.
  rewrite (run_first_order_valid f _ _ _ _ kw _ Hk Ha Hd Hwf Hidx).
  cbn [snd]. split; [reflexivity|].
  rewrite first_calls_length. destruct idx as [l|]; [reflexivity|].
  now rewrite ndindex_length.
Qed.

Lemma first_order_evaluations_witness :
  length (snd (run sum_first
                   (_fd_first_order_centered 0 (Q2Qc 1) [PyArray ex_matrix]
                                             None []))) =
  (2 * size (np_array (PyArray ex_matrix)))%nat.
Proof.
  destruct (first_order_evaluations sum_first 0 (Q2Qc 1) [PyArray ex_matrix]
              None [] (PyArray ex_matrix)) as [_ H].
  - lia.
  - reflexivity.
  - reflexivity.
  - reflexivity.
  - intros l E. discriminate E.
  - exact H.
Defined.

Lemma fill_gradient_slots (entry : nat -> Qc) (shp : list nat)
    (idx : list (list Z)) (g : ndarray pyobj) (p : nat) :
  nth_error (data (fill_gradient entry shp idx g)) p =
  if existsb (fun i => (ravel shp i =? p)%nat) idx
  then (if (p <? length (data g))%nat then Some (PyNum (entry p)) else None)
  else nth_error (data g) p.
Proof.
  revert g. induction idx as [|i rest IH]; intros g; [reflexivity|].
  rewrite fill_gradient_cons, IH. unfold set_slot. cbn [data existsb].
  rewrite update_range_length.
  destruct (existsb (fun i0 => (ravel shp i0 =? p)%nat) rest);
    [now rewrite orb_true_r|].
  rewrite orb_false_r.
  destruct (ravel shp i =? p)%nat eqn:E.
  - apply Nat.eqb_eq in E. subst p.
    destruct (ravel shp i <? length (data g))%nat eqn:El.
    + apply Nat.ltb_lt in El.
      destruct (nth_error (data g) (ravel shp i)) as [e|] eqn:En.
      * now apply update_range_hit with (e := e).
      * apply nth_error_None in En. lia.
    + apply Nat.ltb_ge in El. apply nth_error_None.
      now rewrite update_range_length.
  - apply Nat.eqb_neq in E. apply update_range_miss. congruence.
Qed.

(** X6: for a float-valued [args[argnum]], the gradient returned on valid
    input is described slot by slot: the slot of a position addressed by
    some tuple of [idx] holds the centered difference in that element, every
    other slot holds the integer 0 that [zeros_like] wrote. *)
Theorem first_order_every_slot (f : user_fn) (argnum : Z) (delta : Qc)
    (args : list pyarg) (idx : list (list Z)) (kw : kwargs) (a : pyarg) :
  0 <= argnum -> nth_error args (Z.to_nat argnum) = Some a ->
  (0 < delta)%Qc -> wf_ndarray (np_array a) ->
  dtype_of (np_array a) = Float64 ->
  Forall (valid_index (shape (np_array a))) idx ->
  exists g,
    fst (run f (_fd_first_order_centered argnum delta args (Some idx) kw)) =
    Returned g /\
    forall p, (p < size (np_array a))%nat ->
      nth_error (data g) p =
      Some (if existsb (fun i => (ravel (shape (np_array a)) i =? p)%nat) idx
            then PyNum (first_difference f args (Z.to_nat argnum) kw
                                         (np_array a) delta p)
            else PyInt 0).
Proof.
  intros Hk Ha Hd Hwf _ Hidx.
  rewrite (run_first_order_valid f argnum delta args (Some idx) kw a
             Hk Ha Hd Hwf)
    by (intros l E; injection E as <-; exact Hidx).
  eexists. split; [reflexivity|]. intros p Hp.
  rewrite fill_gradient_slots. cbn [np_zeros_like_obj data].
  rewrite repeat_length. unfold wf_ndarray in Hwf. rewrite Hwf.
  destruct (existsb _ idx).
  - apply Nat.ltb_lt in Hp. now rewrite Hp.
  - apply nth_error_repeat. exact Hp.
Qed.

Lemma first_order_every_slot_witness :
  exists g,
    fst (run sum_first
             (_fd_first_order_centered 0 (Q2Qc 1) [PyArray ex_vector]
                                       (Some [[-1]]) [])) = Returned g /\
    forall p, (p < size (np_array (PyArray ex_vector)))%nat ->
      nth_error (data g) p =
      Some (if existsb
                 (fun i => (ravel (shape (np_array (PyArray ex_vector))) i
                            =? p)%nat) [[-1]]
            then PyNum (first_difference sum_first [PyArray ex_vector]
                          (Z.to_nat 0) [] (np_array (PyArray ex_vector))
                          (Q2Qc 1) p)
            else PyInt 0).
Proof.
  apply (first_order_every_slot sum_first 0 (Q2Qc 1) [PyArray ex_vector]
           [[-1]] [] (PyArray ex_vector)).
  - lia.
  - reflexivity.
  - reflexivity.
  - reflexivity.
  - reflexivity.
  - repeat constructor; simpl; lia.
Defined.

(** X7: the gradient depends on [idx] only through the set of elements it
    addresses: two valid [idx] that address the same elements, in any order
    and with any repetition or negative spelling, give the same gradient. *)
Theorem first_order_idx_order_irrelevant (f : user_fn) (argnum : Z)
    (delta : Qc) (args : list pyarg) (idx idx' : list (list Z)) (kw : kwargs)
    (a : pyarg) :
  0 <= argnum -> nth_error args (Z.to_nat argnum) = Some a ->
  (0 < delta)%Qc -> wf_ndarray (np_array a) ->
  Forall (valid_index (shape (np_array a))) idx ->
  Forall (valid_index (shape (np_array a))) idx' ->
  (forall p, In p (map (ravel (shape (np_array a))) idx) <->
             In p (map (ravel (shape (np_array a))) idx')) ->
  fst (run f (_fd_first_order_centered argnum delta args (Some idx) kw)) =
  fst (run f (_fd_first_order_centered argnum delta args (Some idx') kw)).
Proof.
  intros Hk Ha Hd Hwf Hidx Hidx' Hsame.
  rewrite (run_first_order_valid f argnum delta args (Some idx) kw a
             Hk Ha Hd Hwf)
    by (intros l E; injection E as <-; exact Hidx).
  rewrite (run_first_order_valid f argnum delta args (Some idx') kw a
             Hk Ha Hd Hwf)
    by (intros l E; injection E as <-; exact Hidx').
  cbn [fst]. f_equal.
  assert (Hex : forall p l,
    existsb (fun i => (ravel (shape (np_array a)) i =? p)%nat) l = true <->
    In p (map (ravel (shape (np_array a))) l)).
  { intros p l. rewrite existsb_exists, in_map_iff.
    split; intros (i & H1 & H2).
    - apply Nat.eqb_eq in H2. now exists i.
    - exists i. split; [exact H2 | now apply Nat.eqb_eq]. }
  set (g1 := fill_gradient _ _ idx _). set (g2 := fill_gradient _ _ idx' _).
  assert (Hs : shape g1 = shape g2)
    by (subst g1 g2; now rewrite !fill_gradient_shape).
  assert (Hdata : data g1 = data g2).
  { apply nth_error_ext. intros p. subst g1 g2.
    rewrite !fill_gradient_slots.
    destruct (existsb _ idx) eqn:E1, (existsb _ idx') eqn:E2;
      try reflexivity.
    - apply Hex, Hsame, Hex in E1. congruence.
    - apply Hex, Hsame, Hex in E2. congruence. }
  destruct g1, g2. simpl in *. congruence.
Qed.

Lemma first_order_idx_order_irrelevant_witness :
  fst (run sum_first
           (_fd_first_order_centered 0 (Q2Qc 1) [PyArray ex_vector]
                                     (Some [[0]; [1]]) [])) =
  fst (run sum_first
           (_fd_first_order_centered 0 (Q2Qc 1) [PyArray ex_vector]
                                     (Some [[1]; [-2]; [0]]) [])).
Proof.
  apply (first_order_idx_order_irrelevant sum_first 0 (Q2Qc 1)
           [PyArray ex_vector] [[0]; [1]] [[1]; [-2]; [0]] []
           (PyArray ex_vector)).
  - lia.
  - reflexivity.
  - reflexivity.
  - reflexivity.
  - repeat constructor; simpl; lia.
  - repeat constructor; simpl; lia.
  - intros p. simpl. tauto.
Defined.

(** ** The first-order operator and [finite_diff] agree *)

(** X8: on a one-dimensional array [x] passed as the only argument, the
    entry of index [(i,)] of the gradient of [_fd_first_order_centered] is
    the value [finite_diff] returns for the same function, index and step. *)
Theorem first_order_agrees_with_finite_diff (f : user_fn) (x : ndarray Qc)
    (n : nat) (i : Z) (delta : Qc) :
  shape x = [n] -> wf_ndarray x -> 0 <= i < Z.of_nat n -> (0 < delta)%Qc ->
  exists g v,
    fst (run f (_fd_first_order_centered 0 delta [PyArray x]
                                         (Some [[i]]) [])) = Returned g /\
    fst (run f (finite_diff (PyArray x) (Some i) delta)) = Returned v /\
    np_item g [i] = Some (PyNum v).
Proof.
  intros Hshape Hwf Hi Hd.
  assert (Hv : valid_index (shape (np_array (PyArray x))) [i])
    by (simpl; rewrite Hshape; repeat constructor; lia).
  destruct (first_order_entries f 0 delta [PyArray x] (Some [[i]]) []
              (PyArray x)) as (g & Hrun & _ & _ & Hent);
    [lia | reflexivity | exact Hd | exact Hwf
    | intros l E; injection E as <-; repeat constructor; exact Hv |].
  exists g. eexists. split; [exact Hrun|].
  rewrite (run_finite_diff_vector f x n i delta Hshape Hwf Hi
             (positive_nonzero _ Hd)).
  split; [reflexivity|].
  rewrite (Hent [i]) by (simpl; now left).
  cbn [np_array values]. rewrite !Hshape.
  assert (Hr : ravel [n] [i] = Z.to_nat i)
    by (simpl; rewrite Z.mod_small by lia; lia).
  rewrite Hr.
  unfold first_difference, with_arg, np_value, py_of_array, np_plus, np_minus,
    shift_at, np_add, np_sub.
  cbn [firstn skipn app Z.to_nat shape values dtype_of np_cast].
  rewrite Hshape. reflexivity.
Qed.

Lemma first_order_agrees_with_finite_diff_witness :
  exists g v,
    fst (run sum_first (_fd_first_order_centered 0 (Q2Qc 1) [PyArray ex_vector]
                                                 (Some [[1]]) [])) =
    Returned g /\
    fst (run sum_first (finite_diff (PyArray ex_vector) (Some 1) (Q2Qc 1))) =
    Returned v /\
    np_item g [1] = Some (PyNum v).
Proof.
  apply (first_order_agrees_with_finite_diff sum_first ex_vector 2%nat 1
           (Q2Qc 1)).
  - reflexivity.
  - reflexivity.
  - lia.
  - reflexivity.
Defined.

(** ** [_fd_second_order_centered]: the default [idx] *)

Lemma update_range_all {T} (g : T -> T) (e : T) (n : nat) :
  update_range g 0 n (repeat e n) = repeat (g e) n.
Proof. induction n as [|n IH]; [reflexivity|]. simpl. now rewrite IH. Qed.

Lemma locate_nil (shp : list nat) : locate shp [] = Some (0%nat, prod_shape shp).
Proof. now destruct shp. Qed.

Lemma run_second_order_default (f : user_fn) (argnum : Z) (delta : Qc)
    (args : list pyarg) (kw : kwargs) (a : pyarg) :
  0 <= argnum -> nth_error args (Z.to_nat argnum) = Some a ->
  (0 < delta)%Qc -> wf_ndarray (np_array a) ->
  dtype_of (np_array a) = Float64 ->
  let k := Z.to_nat argnum in
  let step := full_array (shape (np_array a)) delta in
  let plus := np_value (mk_nparray Float64 (np_add (np_array a) step)) in
  let minus := np_value (mk_nparray Float64 (np_sub (np_array a) step)) in
  run f (_fd_second_order_centered argnum delta args None kw) =
  (Returned
     ((f (with_arg args k plus) kw
       - two * f (with_arg args k (PyArray (np_array a))) kw
       + f (with_arg args k minus) kw) / (delta ^ 2))%Qc,
   [(with_arg args k plus, kw);
    (with_arg args k (PyArray (np_array a)), kw);
    (with_arg args k minus, kw)]).
Proof.
  intros Hk Ha Hd Hwf Hfl k step plus minus.
  subst k step plus minus. unfold _fd_second_order_centered.
  destruct (target_valid _ _ _ Hk Ha) as [Ht Hle].
  rewrite (check_argnum_delta_ok _ _ _ Hle Hd), Ht. cbn [bind].
  change (index_eqb [] []) with true. cbv iota.
  unfold fd_second_diagonal, np_iadd, py_of_array, np_plus, np_minus.
  cbn [np_zeros_like values dtype_of shape data].
  rewrite locate_nil, Hfl. cbn [np_cast].
  unfold wf_ndarray, size in Hwf. rewrite Hwf, update_range_all.
  rewrite Qcplus_0_l. fold (full_array (shape (np_array a)) delta).
  cbn [bind values dtype_of].
  rewrite !run_bind, !run_call_at by exact Hk. cbn [fst snd].
  rewrite !run_bind, !run_call_at by exact Hk. cbn [fst snd].
  rewrite !run_bind, !run_call_at by exact Hk. cbn [fst snd].
  rewrite py_pow_neg_nonzero by now apply positive_nonzero.
  reflexivity.
Qed.

(** X9: without [idx], [_fd_second_order_centered] takes [i = j = ()]: for
    a float-valued [args[argnum]] it evaluates [f] three times, at
    [x + delta], [x] and [x - delta] with the step added to every element of
    [x] at once, and returns [(f(x+delta) - 2*f(x) + f(x-delta)) / delta^2].
    For a scalar argument this is the second derivative; for an array it is
    the second directional derivative along the all-ones direction. *)
Theorem second_order_default_idx (f : user_fn) (argnum : Z) (delta : Qc)
    (args : list pyarg) (kw : kwargs) (a : pyarg) :
  0 <= argnum -> nth_error args (Z.to_nat argnum) = Some a ->
  (0 < delta)%Qc -> wf_ndarray (np_array a) ->
  dtype_of (np_array a) = Float64 ->
  fst (run f (_fd_second_order_centered argnum delta args None kw)) =
  Returned
    ((f (with_arg args (Z.to_nat argnum)
           (np_value (mk_nparray Float64
                        (np_add (np_array a)
                                (full_array (shape (np_array a)) delta)))))
        kw
      - two * f (with_arg args (Z.to_nat argnum) (PyArray (np_array a))) kw
      + f (with_arg args (Z.to_nat argnum)
             (np_value (mk_nparray Float64
                          (np_sub (np_array a)
                                  (full_array (shape (np_array a)) delta)))))
          kw)
     / (delta ^ 2))%Qc /\
  length (snd (run f (_fd_second_order_centered argnum delta args None kw))) =
  3%nat.
Proof.
  intros Hk Ha Hd Hwf Hfl.
  rewrite (run_second_order_default f _ _ _ kw _ Hk Ha Hd Hwf Hfl).
  split; reflexivity.
Qed.

Lemma second_order_default_idx_witness :
  length (snd (run sum_first
                   (_fd_second_order_centered 0 (Q2Qc 1) [PyArray ex_vector]
                                              None []))) = 3%nat.
Proof.
  destruct (second_order_default_idx sum_first 0 (Q2Qc 1) [PyArray ex_vector]
              [] (PyArray ex_vector)) as [_ H].
  - lia.
  - reflexivity.
  - reflexivity.
  - reflexivity.
  - reflexivity.
  - exact H.
Defined.

(** X10: for the quadratic function [f(y) = a*y^2 + b*y + c] of a Python
    float, [_fd_second_order_centered] without [idx] returns exactly [2*a],
    for every step [delta > 0]. *)
Theorem second_order_exact_on_quadratics (a b c q delta : Qc) (argnum : Z)
    (args : list pyarg) (kw : kwargs) :
  0 <= argnum -> nth_error args (Z.to_nat argnum) = Some (PyFloat q) ->
  (0 < delta)%Qc ->
  fst (run (quadratic a b c (Z.to_nat argnum))
           (_fd_second_order_centered argnum delta args None kw)) =
  Returned (two * a)%Qc.
Proof.
  intros Hk Ha Hd.
  rewrite (run_second_order_default _ _ _ _ kw _ Hk Ha Hd) by reflexivity.
  cbn [fst]. unfold quadratic.
  assert (Hlen : (Z.to_nat argnum <= length args)%nat).
  { assert (Z.to_nat argnum < length args)%nat
      by (apply nth_error_Some; congruence). lia. }
  rewrite !nth_error_with_arg by exact Hlen.
  cbn.
  f_equal. rewrite two_sum. field. now apply positive_nonzero.
Qed.

Lemma second_order_exact_on_quadratics_witness :
  fst (run (quadratic (Q2Qc 3) (Q2Qc 1) (Q2Qc 5) (Z.to_nat 0))
           (_fd_second_order_centered 0 (Q2Qc (1 # 100)) [PyFloat (Q2Qc 2)]
                                      None [])) =
  Returned (two * Q2Qc 3)%Qc.
Proof.
  apply (second_order_exact_on_quadratics
           (Q2Qc 3) (Q2Qc 1) (Q2Qc 5) (Q2Qc 2) (Q2Qc (1 # 100)) 0
           [PyFloat (Q2Qc 2)] []).
  - lia.
  - reflexivity.
  - reflexivity.
Defined.

(** ** [_fd_second_order_centered]: cost, aliased indices, linear functions *)

(** X11: on valid input with a supplied pair [idx = [i, j]] the second-order
    operator evaluates [f] three times when [i == j] and four times when
    [i != j]. *)
Theorem second_order_evaluation_count (f : user_fn) (argnum : Z) (delta : Qc)
    (args : list pyarg) (i j : list Z) (kw : kwargs) (a : pyarg) :
  0 <= argnum -> nth_error args (Z.to_nat argnum) = Some a ->
  (0 < delta)%Qc -> wf_ndarray (np_array a) ->
  valid_index (shape (np_array a)) i -> valid_index (shape (np_array a)) j ->
  length (snd (run f (_fd_second_order_centered argnum delta args
                                                (Some [i; j]) kw))) =
  if index_eqb i j then 3%nat else 4%nat.
Proof.
  intros Hk Ha Hd Hwf Hi Hj.
  rewrite (second_order_program _ _ _ _ _ kw _ Hk Ha Hd)
    by now apply valid_passes.
  pose proof (positive_nonzero _ Hd) as Hnz.
  destruct (index_eqb i j).
  - now apply run_fd_second_diagonal.
  - now apply run_fd_second_off_diagonal.
Qed.

Lemma second_order_evaluation_count_witness :
  length (snd (run sum_first
                   (_fd_second_order_centered 0 (Q2Qc 1) [PyArray ex_vector]
                                              (Some [[0]; [1]]) []))) =
  if index_eqb [0] [1] then 3%nat else 4%nat.
Proof.
  apply (second_order_evaluation_count sum_first 0 (Q2Qc 1)
           [PyArray ex_vector] [0] [1] [] (PyArray ex_vector)).
  - lia.
  - reflexivity.
  - reflexivity.
  - reflexivity.
  - repeat constructor; simpl; lia.
  - repeat constructor; simpl; lia.
Defined.

Lemma zip_with_length {A B C} (g : A -> B -> C) (l : list A) (m : list B) :
  length l = length m -> length (zip_with g l m) = length l.
Proof.
  revert m. induction l as [|a l IH]; intros [|b m] H; simpl in *;
    try discriminate; [reflexivity|].
  f_equal. apply IH. now injection H.
Qed.






Lemma dot_plus (a x s : list Qc) :
  length x = length s ->
  dot a (zip_with Qcplus x s) = (dot a x + dot a s)%Qc /\
  dot a (zip_with Qcminus x s) = (dot a x - dot a s)%Qc.
Proof.
  revert x s. induction a as [|a0 a IH]; intros x s Hlen.
  - simpl. split; ring.
  - destruct x as [|x0 x], s as [|s0 s]; simpl in *; try discriminate.
    + split; ring.
    + injection Hlen as Hlen. destruct (IH x s Hlen) as [-> ->].
      split; ring.
Qed.

(** X13: the second-order operator returns exactly 0 for a linear function
    [f(x) = a . x], for every valid pair of indices (equal or not) and every
    step [delta > 0]. *)
Theorem second_order_linear_is_zero (coeffs : list Qc) (argnum : Z)
    (delta : Qc) (args : list pyarg) (i j : list Z) (kw : kwargs)
    (a : pyarg) :
  0 <= argnum -> nth_error args (Z.to_nat argnum) = Some a ->
  (0 < delta)%Qc -> wf_ndarray (np_array a) ->
  valid_index (shape (np_array a)) i -> valid_index (shape (np_array a)) j ->
  fst (run (linear coeffs (Z.to_nat argnum))
           (_fd_second_order_centered argnum delta args (Some [i; j]) kw)) =
  Returned (Q2Qc 0).
Proof.
  intros Hk Ha Hd Hwf Hi Hj.
  rewrite (run_second_order_valid _ _ _ _ _ _ kw _ Hk Ha Hd Hwf Hi Hj).
  assert (Hlen : (Z.to_nat argnum <= length args)%nat).
  { assert (Z.to_nat argnum < length args)%nat
      by (apply nth_error_Some; congruence). lia. }
  assert (Hu : forall p v,
    length (data (np_array a)) =
    length (one_hot (prod_shape (shape (np_array a))) p v))
    by (intros p v; rewrite one_hot_length; exact Hwf).
  pose proof (typed_np_array a) as Hx.
  assert (Hstep : forall y p v,
    dtype_of y = dtype_of (np_array a) -> typed y ->
    typed (np_plus y (shift_at (np_array a) p v)) /\
    typed (np_minus y (shift_at (np_array a) p v))).
  { intros y p v Hy Hty.
    apply typed_np_plus; [now rewrite Hy | exact Hty | apply typed_shift_at]. }
  f_equal. destruct (index_eqb i j).
  - unfold three_point, linear. cbv zeta.
    destruct (Hstep (np_array a) (ravel (shape (np_array a)) i) delta
                eq_refl Hx) as [Hp Hm].
    rewrite !nth_error_with_arg by exact Hlen.
    rewrite !np_array_np_value, np_array_py_of_array by assumption.
    unfold np_plus, np_minus, shift_at, np_add, np_sub, unit_array.
    cbn [shape data values].
    destruct (dot_plus coeffs _ _
                (Hu (ravel (shape (np_array a)) i)
                    (np_cast (dtype_of (np_array a)) delta)))
      as [-> ->].
    rewrite two_sum. unfold Qcdiv. ring.
  - unfold four_point, linear. cbv zeta.
    destruct (Hstep (np_array a) (ravel (shape (np_array a)) i)
                (delta / two)%Qc eq_refl Hx) as [Htp Htm].
    destruct (Hstep (np_plus (np_array a) _)
                (ravel (shape (np_array a)) j) (delta / two)%Qc
                eq_refl Htp) as [Hpp Hpm].
    destruct (Hstep (np_minus (np_array a) _)
                (ravel (shape (np_array a)) j) (delta / two)%Qc
                eq_refl Htm) as [Hmp Hmm].
    rewrite !nth_error_with_arg by exact Hlen.
    rewrite !np_array_np_value by assumption.
    unfold np_plus, np_minus, shift_at, np_add, np_sub, unit_array.
    cbn [shape data values].
    set (si := one_hot _ (ravel (shape (np_array a)) i) _).
    set (sj := one_hot _ (ravel (shape (np_array a)) j) _).
    assert (Hsi : length (data (np_array a)) = length si)
      by (subst si; apply Hu).
    assert (Hsj : length (data (np_array a)) = length sj)
      by (subst sj; apply Hu).
    assert (Hp : length (zip_with Qcplus (data (np_array a)) si) = length sj)
      by (rewrite zip_with_length by exact Hsi; exact Hsj).
    assert (Hm : length (zip_with Qcminus (data (np_array a)) si) = length sj)
      by (rewrite zip_with_length by exact Hsi; exact Hsj).
    destruct (dot_plus coeffs _ _ Hp) as [-> ->].
    destruct (dot_plus coeffs _ _ Hm) as [-> ->].
    destruct (dot_plus coeffs _ _ Hsi) as [-> ->].
    unfold Qcdiv. ring.
Qed.

Lemma second_order_linear_is_zero_witness :
  fst (run (linear [Q2Qc 5; Q2Qc 7] (Z.to_nat 0))
           (_fd_second_order_centered 0 (Q2Qc 1) [PyArray ex_vector]
                                      (Some [[0]; [1]]) [])) =
  Returned (Q2Qc 0).
Proof.
  apply (second_order_linear_is_zero [Q2Qc 5; Q2Qc 7] 0 (Q2Qc 1)
           [PyArray ex_vector] [0] [1] [] (PyArray ex_vector)).
  - lia.
  - reflexivity.
  - reflexivity.
  - reflexivity.
  - repeat constructor; simpl; lia.
  - repeat constructor; simpl; lia.
Defined.

(** ** Which error a bad call gets *)

(** X14: an [argnum] that Python cannot use as an index of [args] never
    reaches [f]: above [len(args) - 1] both operators raise the value error
    that reports the range and the value, whatever [delta] and [idx]; below
    [-len(args)] (with [delta > 0]) they raise the index error of
    [args[argnum]]. *)
Theorem argnum_out_of_range_never_evaluates (f : user_fn) (argnum : Z)
    (delta : Qc) (args : list pyarg) (idx : option (list (list Z)))
    (kw : kwargs) :
  (argnum > Z.of_nat (length args) - 1 ->
   run f (_fd_first_order_centered argnum delta args idx kw) =
   (Raised (ValueError (ArgnumOutOfRange (Z.of_nat (length args) - 1) argnum)),
    []) /\
   run f (_fd_second_order_centered argnum delta args idx kw) =
   (Raised (ValueError (ArgnumOutOfRange (Z.of_nat (length args) - 1) argnum)),
    [])) /\
  (argnum < - Z.of_nat (length args) -> (0 < delta)%Qc ->
   run f (_fd_first_order_centered argnum delta args idx kw) =
   (Raised IndexError, []) /\
   run f (_fd_second_order_centered argnum delta args idx kw) =
   (Raised IndexError, [])).
Proof.
  split.
  - apply argnum_above_rejected.
  - apply argnum_below_raises.
Qed.

Lemma argnum_out_of_range_never_evaluates_witness :
  run sum_first
      (_fd_first_order_centered 1 (Q2Qc 1) [PyArray ex_vector] None []) =
  (Raised (ValueError
             (ArgnumOutOfRange (Z.of_nat (length [PyArray ex_vector]) - 1) 1)),
   []) /\
  run sum_first
      (_fd_second_order_centered (-2) (Q2Qc 1) [PyArray ex_vector] None []) =
  (Raised IndexError, []).
Proof.
  split.
  - destruct (argnum_out_of_range_never_evaluates
                sum_first 1 (Q2Qc 1) [PyArray ex_vector] None []) as [H _].
    destruct H as [H _]; [simpl; lia | exact H].
  - destruct (argnum_out_of_range_never_evaluates
                sum_first (-2) (Q2Qc 1) [PyArray ex_vector] None []) as [_ H].
    destruct H as [_ H]; [simpl; lia | reflexivity | exact H].
Defined.

Lemma check_idx_first_bad (x : ndarray Qc) (pre : list (list Z)) (t : list Z)
    (post : list (list Z)) :
  Forall (passes_check (shape x)) pre -> ~ passes_check (shape x) t ->
  check_idx x (pre ++ t :: post) =
  Raise (ValueError (if (length t =? ndim x)%nat
                     then IdxOutOfBounds (idx_bounds x) t
                     else IdxWrongLength (ndim x) t (length t))).
Proof.
  intros Hpre Ht. induction Hpre as [|u pre Hu _ IH]; cbn [app check_idx].
  - destruct (length t =? ndim x)%nat eqn:El; [|reflexivity].
    cbn [negb]. destruct (any_gt t (idx_bounds x)) eqn:Eg; [reflexivity|].
    exfalso. apply Ht. apply any_gt_passes; [|exact Eg].
    now apply Nat.eqb_eq in El.
  - destruct (passes_any_gt _ _ Hu) as [Hlen Hgt].
    unfold ndim, idx_bounds. rewrite Hlen, Nat.eqb_refl, Hgt. exact IH.
Qed.

(** X15: the error of a bad [idx] is decided in a fixed order.  On a call
    with valid [argnum] and [delta], the tuples are checked in the order of
    [idx] and the error reports the first tuple that fails, for its length
    when that differs from the dimensionality and for its bounds otherwise;
    in the second-order operator the count of tuples is checked before any
    tuple.  In every case [f] is not evaluated. *)
Theorem idx_error_reports_first_offender (f : user_fn) (argnum : Z)
    (delta : Qc) (args : list pyarg) (pre : list (list Z)) (t : list Z)
    (post : list (list Z)) (kw : kwargs) (a : pyarg) :
  0 <= argnum -> nth_error args (Z.to_nat argnum) = Some a ->
  (0 < delta)%Qc ->
  Forall (passes_check (shape (np_array a))) pre ->
  ~ passes_check (shape (np_array a)) t ->
  run f (_fd_first_order_centered argnum delta args
                                  (Some (pre ++ t :: post)) kw) =
  (Raised (ValueError
             (if (length t =? ndim (np_array a))%nat
              then IdxOutOfBounds (idx_bounds (np_array a)) t
              else IdxWrongLength (ndim (np_array a)) t (length t))), []) /\
  run f (_fd_second_order_centered argnum delta args
                                   (Some (pre ++ t :: post)) kw) =
  (Raised (ValueError
             (if (2 <? length (pre ++ t :: post))%nat
              then TooManyIndices (length (pre ++ t :: post))
              else if (length t =? ndim (np_array a))%nat
                   then IdxOutOfBounds (idx_bounds (np_array a)) t
                   else IdxWrongLength (ndim (np_array a)) t (length t))),
   []).
Proof.
  intros Hk Ha Hd Hpre Ht.
  destruct (target_valid _ _ _ Hk Ha) as [Htg Hle].
  unfold _fd_first_order_centered, _fd_second_order_centered.
  rewrite (check_argnum_delta_ok _ _ _ Hle Hd), Htg. cbn [bind].
  rewrite (check_idx_first_bad _ _ _ post Hpre Ht).
  split; [reflexivity|].
  now destruct (2 <? length (pre ++ t :: post))%nat.
Qed.

Lemma idx_error_reports_first_offender_witness :
  run sum_first
      (_fd_first_order_centered 0 (Q2Qc 1) [PyArray ex_vector]
                                (Some ([[0]] ++ [2] :: [[0; 0]])) []) =
  (Raised (ValueError
             (if (length [2] =? ndim (np_array (PyArray ex_vector)))%nat
              then IdxOutOfBounds (idx_bounds (np_array (PyArray ex_vector)))
                                  [2]
              else IdxWrongLength (ndim (np_array (PyArray ex_vector))) [2]
                                  (length [2]))), []).
Proof.
  destruct (idx_error_reports_first_offender
              sum_first 0 (Q2Qc 1) [PyArray ex_vector] [[0]] [2] [[0; 0]] []
              (PyArray ex_vector)) as [H _].
  - lia.
  - reflexivity.
  - reflexivity.
  - repeat constructor; simpl; lia.
  - intros H. inversion H; subst. simpl in *. lia.
  - exact H.
Defined.

(** * Properties of the wrappers [grad] and [jacobian] *)

Lemma trainable_from_spec (start : nat) (args : list tensor_arg) :
  (forall k, In k (trainable_from start args) <->
             exists a, (start <= k)%nat /\
                       nth_error args (k - start) = Some a /\
                       is_trainable a = true) /\
  Forall (fun k => (start <= k)%nat) (trainable_from start args) /\
  StronglySorted Nat.lt (trainable_from start args).
Proof.
  revert start. induction args as [|a rest IH]; intros start.
  - simpl. split; [|split; constructor].
    intros k. split; [intros [] | intros (a & _ & H & _)].
    now destruct (k - start)%nat.
  - destruct (IH (S start)) as (Hin & Hge & Hsorted).
    assert (Hgt : Forall (fun k => (start < k)%nat)
                         (trainable_from (S start) rest)).
    { eapply Forall_impl; [|exact Hge]. intros k Hk. exact Hk. }
    assert (Hrest : forall k,
      In k (trainable_from (S start) rest) <->
      exists a', (start < k)%nat /\
                 nth_error (a :: rest) (k - start) = Some a' /\
                 is_trainable a' = true).
    { intros k. rewrite Hin. split; intros (a' & Hk & Hn & Ht); exists a'.
      - split; [lia|]. split; [|exact Ht].
        replace (k - start)%nat with (S (k - S start)) by lia. exact Hn.
      - split; [lia|]. split; [|exact Ht].
        replace (k - start)%nat with (S (k - S start)) in Hn by lia.
        exact Hn. }
    cbn [trainable_from]. destruct (is_trainable a) eqn:Ea.
    + split; [|split].
      * intros k. cbn [In]. rewrite Hrest. split.
        -- intros [<- | (a' & Hk & Hn & Ht)].
           ++ exists a. rewrite Nat.sub_diag. repeat split; [lia | exact Ea].
           ++ exists a'. repeat split; [lia | exact Hn | exact Ht].
        -- intros (a' & Hk & Hn & Ht).
           destruct (Nat.eq_dec start k) as [E | E]; [now left|].
           right. exists a'. repeat split; [lia | exact Hn | exact Ht].
      * constructor; [lia|]. eapply Forall_impl; [|exact Hgt].
        intros k Hk. simpl in Hk. lia.
      * constructor; [exact Hsorted | exact Hgt].
    + split; [|split].
      * intros k. rewrite Hrest. split.
        -- intros (a' & Hk & Hn & Ht). exists a'.
           repeat split; [lia | exact Hn | exact Ht].
        -- intros (a' & Hk & Hn & Ht).
           destruct (Nat.eq_dec start k) as [E | E].
           ++ subst k. rewrite Nat.sub_diag in Hn. simpl in Hn.
              injection Hn as <-. congruence.
           ++ exists a'. repeat split; [lia | exact Hn | exact Ht].
      * eapply Forall_impl; [|exact Hgt]. intros k Hk. simpl in Hk. lia.
      * exact Hsorted.
Qed.

(** X16: the argument inspection shared by [grad] and [jacobian] selects
    exactly the positions of the arguments whose [requires_grad] is absent or
    true, each once and in increasing order. *)
Theorem trainable_argnums_spec (args : list tensor_arg) :
  (forall k, In k (trainable_argnums args) <->
             exists a, nth_error args k = Some a /\
                       requires_grad a <> Some false) /\
  StronglySorted Nat.lt (trainable_argnums args).
Proof.
  destruct (trainable_from_spec 0 args) as (Hin & _ & Hsorted).
  split; [|exact Hsorted].
  intros k. unfold trainable_argnums. rewrite Hin, Nat.sub_0_r.
  split; intros (a & H); exists a.
  - destruct H as (_ & Hn & Ht). split; [exact Hn|].
    unfold is_trainable in Ht. intros E. rewrite E in Ht. discriminate.
  - destruct H as (Hn & Ht). split; [lia|]. split; [exact Hn|].
    unfold is_trainable. destruct (requires_grad a) as [[|]|];
      congruence.
Qed.

Lemma trainable_from_nil (start : nat) (args : list tensor_arg) :
  trainable_from start args = [] <->
  Forall (fun a => requires_grad a = Some false) args.
Proof.
  revert start. induction args as [|a rest IH]; intros start.
  - split; [constructor | reflexivity].
  - cbn [trainable_from]. unfold is_trainable.
    destruct (requires_grad a) as [[|]|] eqn:E.
    + split; [discriminate | intros H; inversion H; congruence].
    + rewrite IH. split; [now constructor | intros H; now inversion H].
    + split; [discriminate | intros H; inversion H; congruence].
Qed.

(** X17: the function that [jacobian] builds without [argnum] returns the
    empty tuple exactly when every argument has [requires_grad] false; in
    every other case it returns a value computed by autograd. *)
Theorem jacobian_empty_iff_nothing_trainable (ag : autograd) (func : Fn ag)
    (args : list tensor_arg) (kw : kwargs) :
  jacobian ag func None args kw = EmptyTuple <->
  Forall (fun a => requires_grad a = Some false) args.
Proof.
  rewrite <- (trainable_from_nil 0 args). unfold jacobian.
  fold (trainable_argnums args).
  destruct (trainable_argnums args) as [|k [|k' ks]];
    split; (reflexivity || discriminate).
Qed.

Lemma grad_calls_attributes {ag : autograd} (self : grad_object ag)
    (calls : list (list tensor_arg * kwargs)) :
  _grad_fn (grad_calls self calls) = _grad_fn self /\
  _fun (grad_calls self calls) = _fun self /\
  _argnum (grad_calls self calls) = _argnum self.
Proof.
  revert self. induction calls as [|c calls IH]; intros self; [now split|].
  unfold grad_calls in *. cbn [fold_left].
  destruct (IH (fst (grad_call self (fst c) (snd c)))) as (-> & -> & ->).
  unfold grad_call.
  destruct (_get_grad_fn self (fst c) (fst c) (snd c)) as [e | [gv ans]];
    now split.
Qed.

(** X18: a [grad] object has no forward value before its first call.  After
    any calls, a call differentiates with respect to the [argnum] given at
    its creation whatever the flags of the arguments, or, when none was
    given, with respect to the trainable arguments of this very call (the
    object caches nothing).  When the forward value is scalar the call
    returns the vector-Jacobian product at [ones] and stores the forward
    value; otherwise it raises the type error and leaves the stored forward
    value as it was. *)
Theorem grad_call_uses_argnum_in_force (ag : autograd) (fun_ : Fn ag)
    (argnum : option argnum_spec) (calls : list (list tensor_arg * kwargs))
    (args : list tensor_arg) (kw : kwargs) :
  forward (grad_init ag fun_ argnum) = None /\
  (vspace_size ag
     (snd (make_vjp ag fun_
             (match argnum with Some an => an | None => inferred_argnum args end)
             args kw)) = 1%nat ->
   snd (grad_call (grad_calls (grad_init ag fun_ argnum) calls) args kw) =
   inr (apply_vjp ag
          (fst (make_vjp ag fun_
                  (match argnum with
                   | Some an => an
                   | None => inferred_argnum args
                   end) args kw))
          (vspace_ones ag
             (snd (make_vjp ag fun_
                     (match argnum with
                      | Some an => an
                      | None => inferred_argnum args
                      end) args kw)))) /\
   forward (fst (grad_call (grad_calls (grad_init ag fun_ argnum) calls)
                           args kw)) =
   Some (snd (make_vjp ag fun_
                (match argnum with
                 | Some an => an
                 | None => inferred_argnum args
                 end) args kw))) /\
  (vspace_size ag
     (snd (make_vjp ag fun_
             (match argnum with Some an => an | None => inferred_argnum args end)
             args kw)) <> 1%nat ->
   snd (grad_call (grad_calls (grad_init ag fun_ argnum) calls) args kw) =
   inl NotScalarOutput /\
   forward (fst (grad_call (grad_calls (grad_init ag fun_ argnum) calls)
                           args kw)) =
   forward (grad_calls (grad_init ag fun_ argnum) calls)).
Proof.
  split; [reflexivity|].
  destruct (grad_calls_attributes (grad_init ag fun_ argnum) calls)
    as (Hg & Hf & _).
  set (obj := grad_calls (grad_init ag fun_ argnum) calls) in *.
  assert (Hfn : _get_grad_fn obj args args kw =
                _grad_with_forward ag fun_
                  (match argnum with
                   | Some an => an
                   | None => inferred_argnum args
                   end) args kw).
  { unfold _get_grad_fn. rewrite Hg, Hf. now destruct argnum. }
  unfold grad_call. rewrite Hfn. unfold _grad_with_forward.
  destruct (make_vjp ag fun_ _ args kw) as [vjp ans]. cbn [fst snd].
  split; intros Hsize.
  - rewrite Hsize. cbn. now split.
  - apply Nat.eqb_neq in Hsize. rewrite Hsize. cbn. now split.
Qed.

Lemma grad_call_uses_argnum_in_force_witness :
  snd (grad_call
         (grad_calls (grad_init ex_autograd (Q2Qc 3) None)
                     [([mk_tensor_arg (PyFloat (Q2Qc 1)) None], [])])
         [mk_tensor_arg (PyFloat (Q2Qc 1)) (Some false);
          mk_tensor_arg (PyFloat (Q2Qc 2)) None] []) =
  inr (apply_vjp ex_autograd
         (fst (make_vjp ex_autograd (Q2Qc 3)
                 (inferred_argnum
                    [mk_tensor_arg (PyFloat (Q2Qc 1)) (Some false);
                     mk_tensor_arg (PyFloat (Q2Qc 2)) None])
                 [mk_tensor_arg (PyFloat (Q2Qc 1)) (Some false);
                  mk_tensor_arg (PyFloat (Q2Qc 2)) None] []))
         (vspace_ones ex_autograd
            (snd (make_vjp ex_autograd (Q2Qc 3)
                    (inferred_argnum
                       [mk_tensor_arg (PyFloat (Q2Qc 1)) (Some false);
                        mk_tensor_arg (PyFloat (Q2Qc 2)) None])
                    [mk_tensor_arg (PyFloat (Q2Qc 1)) (Some false);
                     mk_tensor_arg (PyFloat (Q2Qc 2)) None] [])))).
Proof.
  destruct (grad_call_uses_argnum_in_force ex_autograd (Q2Qc 3) None
              [([mk_tensor_arg (PyFloat (Q2Qc 1)) None], [])]
              [mk_tensor_arg (PyFloat (Q2Qc 1)) (Some false);
               mk_tensor_arg (PyFloat (Q2Qc 2)) None] [])
    as (_ & H & _).
  destruct H as [H _]; [reflexivity | exact H].
Defined.

(** * Arrays of several dimensions *)




Lemma ndindex_covers (shp : list nat) (p : nat) :
  (p < prod_shape shp)%nat ->
  exists i, In i (ndindex shp) /\ ravel shp i = p.
Proof.
  revert p. induction shp as [|n s IH]; intros p Hp.
  - exists []. simpl in *. split; [now left | lia].
  - simpl in Hp.
    assert (Hm : (0 < prod_shape s)%nat) by nia.
    destruct (IH (p mod prod_shape s)%nat) as (i & Hin & Hr);
      [apply Nat.mod_upper_bound; lia|].
    assert (Hc : (p / prod_shape s < n)%nat)
      by (apply Nat.Div0.div_lt_upper_bound; nia).
    exists (Z.of_nat (p / prod_shape s) :: i). split.
    + cbn [ndindex]. apply in_flat_map. exists (p / prod_shape s)%nat.
      split; [apply in_seq; lia | now apply in_map].
    + cbn [ravel]. rewrite Z.mod_small by lia. rewrite Nat2Z.id, Hr.
      rewrite (Nat.div_mod_eq p (prod_shape s)) at 3. lia.
Qed.

(** X20: with the default [idx] the gradient is complete: on valid input
    with a float-valued [args[argnum]] every slot of the returned array
    holds the centered difference in its element, and no slot keeps the
    integer 0 of [zeros_like]. *)
Theorem first_order_default_is_complete (f : user_fn) (argnum : Z)
    (delta : Qc) (args : list pyarg) (kw : kwargs) (a : pyarg) :
  0 <= argnum -> nth_error args (Z.to_nat argnum) = Some a ->
  (0 < delta)%Qc -> wf_ndarray (np_array a) ->
  dtype_of (np_array a) = Float64 ->
  exists g,
    fst (run f (_fd_first_order_centered argnum delta args None kw)) =
    Returned g /\
    length (data g) = size (np_array a) /\
    forall p, (p < size (np_array a))%nat ->
      nth_error (data g) p =
      Some (PyNum (first_difference f args (Z.to_nat argnum) kw (np_array a)
                                    delta p)).
Proof.
  intros Hk Ha Hd Hwf _.
  rewrite (run_first_order_valid f argnum delta args None kw a Hk Ha Hd Hwf)
    by (intros l E; discriminate E).
  eexists. split; [reflexivity|].
  unfold wf_ndarray in Hwf.
  split.
  { rewrite fill_gradient_length. simpl. now rewrite repeat_length. }
  intros p Hp. rewrite fill_gradient_slots. cbn [np_zeros_like_obj data].
  rewrite repeat_length, Hwf.
  destruct (ndindex_covers (shape (np_array a)) p Hp) as (i & Hin & Hr).
  assert (Hex : existsb (fun i0 => (ravel (shape (np_array a)) i0 =? p)%nat)
                        (ndindex (shape (np_array a))) = true).
  { apply existsb_exists. exists i. split; [exact Hin | now apply Nat.eqb_eq]. }
  rewrite Hex. apply Nat.ltb_lt in Hp. now rewrite Hp.
Qed.

Lemma first_order_default_is_complete_witness :
  exists g,
    fst (run sum_first
             (_fd_first_order_centered 0 (Q2Qc 1) [PyArray ex_matrix]
                                       None [])) = Returned g /\
    length (data g) = size (np_array (PyArray ex_matrix)) /\
    forall p, (p < size (np_array (PyArray ex_matrix)))%nat ->
      nth_error (data g) p =
      Some (PyNum (first_difference sum_first [PyArray ex_matrix] (Z.to_nat 0)
                     [] (np_array (PyArray ex_matrix)) (Q2Qc 1) p)).
Proof.
  apply (first_order_default_is_complete sum_first 0 (Q2Qc 1)
           [PyArray ex_matrix] [] (PyArray ex_matrix)).
  - lia.
  - reflexivity.
  - reflexivity.
  - reflexivity.
  - reflexivity.
Defined.

(** * Integer arguments *)

Lemma Qc_trunc_small (q : Qc) : (0 <= q)%Qc -> (q < 1)%Qc -> Qc_trunc q = 0.
Proof.
  unfold Qcle, Qclt, Qle, Qlt, Qc_trunc. destruct q as [[n d] Hc]. simpl.
  intros H0 H1. apply Z.quot_small. lia.
Qed.

Lemma half_step_small (delta : Qc) :
  (0 < delta)%Qc -> (delta < two)%Qc ->
  (0 <= delta / two)%Qc /\ (delta / two < 1)%Qc.
Proof.
  intros H0 H2. rewrite <- half_step_r.
  assert (Hh : (0 < half)%Qc) by reflexivity.
  split.
  - apply Qclt_le_weak.
    pose proof (Qcmult_lt_compat_r _ _ _ Hh H0) as H.
    now rewrite Qcmult_0_l in H.
  - replace (Q2Qc 1) with (two * half)%Qc by (apply Qc_is_canon; reflexivity).
    now apply Qcmult_lt_compat_r.
Qed.

Lemma one_hot_zero (n p : nat) : one_hot n p (Q2Qc 0) = repeat (Q2Qc 0) n.
Proof.
  revert p. induction n as [|n IH]; intros p; [reflexivity|].
  simpl. destruct p as [|p]; [reflexivity | now rewrite IH].
Qed.

(** In an integer array a step below 1 is stored as 0: the shift is
    [zeros_like(x)]. *)
Lemma shift_at_small (x : nparray) (p : nat) (v : Qc) :
  wf_ndarray x -> dtype_of x = Int64 -> (0 <= v)%Qc -> (v < 1)%Qc ->
  shift_at x p v = np_zeros_like x.
Proof.
  intros Hwf Hint H0 H1. unfold shift_at, np_zeros_like, unit_array.
  rewrite Hint. cbn [np_cast]. rewrite (Qc_trunc_small v H0 H1).
  change (Z2Qc 0) with (Q2Qc 0). now rewrite one_hot_zero, Hwf.
Qed.

Lemma zip_zeros (d : list Qc) :
  zip_with Qcplus d (repeat (Q2Qc 0) (length d)) = d /\
  zip_with Qcminus d (repeat (Q2Qc 0) (length d)) = d.
Proof.
  induction d as [|q d [IHp IHm]]; [now split|].
  simpl. rewrite IHp, IHm. split; f_equal; ring.
Qed.

Lemma np_plus_zeros (x : nparray) :
  np_plus x (np_zeros_like x) = x /\ np_minus x (np_zeros_like x) = x.
Proof.
  destruct x as [dt [shp d]].
  unfold np_plus, np_minus, np_zeros_like, np_add, np_sub.
  cbn [values dtype_of shape data].
  destruct (zip_zeros d) as [-> ->]. now split.
Qed.

(** X21: on an integer-valued [args[argnum]] and a step [0 < delta < 2], the
    half step is stored as 0 in the integer shift.  On valid input
    [_fd_first_order_centered] then evaluates [f] at the unshifted [x] only,
    and every requested entry of the gradient is 0, whatever [f] is. *)
Theorem first_order_integer_small_step (f : user_fn) (argnum : Z) (delta : Qc)
    (args : list pyarg) (idx : option (list (list Z))) (kw : kwargs)
    (a : pyarg) :
  0 <= argnum -> nth_error args (Z.to_nat argnum) = Some a ->
  (0 < delta)%Qc -> (delta < two)%Qc -> wf_ndarray (np_array a) ->
  dtype_of (np_array a) = Int64 ->
  (forall l, idx = Some l -> Forall (valid_index (shape (np_array a))) l) ->
  (forall c,
     In c (snd (run f (_fd_first_order_centered argnum delta args idx kw))) ->
     c = (with_arg args (Z.to_nat argnum) (np_value (np_array a)), kw)) /\
  exists g : ndarray pyobj,
    fst (run f (_fd_first_order_centered argnum delta args idx kw)) =
    Returned g /\
    forall i, requested (np_array a) idx i ->
      np_item g i = Some (PyNum (Q2Qc 0)).
Proof.
  intros Hk Ha Hd H2 Hwf Hint Hidx.
  destruct (half_step_small delta Hd H2) as [Hs0 Hs1].
  assert (Hshift : forall p,
    shift_at (np_array a) p (delta / two)%Qc = np_zeros_like (np_array a))
    by (intros p; now apply shift_at_small).
  destruct (np_plus_zeros (np_array a)) as [Hplus Hminus].
  split.
  - rewrite (run_first_order_valid f _ _ _ _ kw _ Hk Ha Hd Hwf Hidx).
    cbn [snd]. intros c Hc. apply in_flat_map in Hc.
    destruct Hc as (i & _ & Hc). unfold first_calls in Hc.
    rewrite Hshift, Hplus, Hminus in Hc.
    destruct Hc as [<- | [<- | []]]; reflexivity.
  - destruct (first_order_entries f argnum delta args idx kw a
                Hk Ha Hd Hwf Hidx) as (g & Hrun & _ & _ & Hent).
    exists g. split; [exact Hrun|]. intros i Hreq.
    rewrite (Hent i Hreq). unfold first_difference.
    rewrite Hshift, Hplus, Hminus. do 2 f_equal. unfold Qcdiv. ring.
Qed.

Lemma first_order_integer_small_step_witness :
  exists g : ndarray pyobj,
    fst (run sum_first
             (_fd_first_order_centered 0 (Q2Qc 1) [PyIntArray ex_int_vector]
                                       None [])) = Returned g /\
    forall i, requested (np_array (PyIntArray ex_int_vector)) None i ->
      np_item g i = Some (PyNum (Q2Qc 0)).
Proof.
  destruct (first_order_integer_small_step sum_first 0 (Q2Qc 1)
              [PyIntArray ex_int_vector] None [] (PyIntArray ex_int_vector))
    as [_ H].
  - lia.
  - reflexivity.
  - reflexivity.
  - reflexivity.
  - reflexivity.
  - reflexivity.
  - intros l E. discriminate E.
  - exact H.
Defined.

(** X22: without [idx], [_fd_second_order_centered] adds the step to the
    view [shift[()]] of the whole shift, in place.  On an integer array of
    one or more dimensions numpy refuses to add the float step in place: the
    call raises a type error and [f] is not evaluated. *)
Theorem second_order_default_integer_array (f : user_fn) (argnum : Z)
    (delta : Qc) (args : list pyarg) (kw : kwargs) (a : pyarg) :
  0 <= argnum -> nth_error args (Z.to_nat argnum) = Some a ->
  (0 < delta)%Qc ->
  dtype_of (np_array a) = Int64 -> shape (np_array a) <> [] ->
  run f (_fd_second_order_centered argnum delta args None kw) =
  (Raised TypeError, []).
Proof.
  intros Hk Ha Hd Hint Hshape. unfold _fd_second_order_centered.
  destruct (target_valid _ _ _ Hk Ha) as [Ht Hle].
  rewrite (check_argnum_delta_ok _ _ _ Hle Hd), Ht. cbn [bind].
  change (index_eqb [] []) with true. cbv iota.
  unfold fd_second_diagonal, np_iadd, ndim.
  cbn [np_zeros_like values dtype_of shape data].
  rewrite locate_nil, Hint.
  destruct (shape (np_array a)); [congruence | reflexivity].
Qed.

Lemma second_order_default_integer_array_witness :
  run sum_first
      (_fd_second_order_centered 0 (Q2Qc 1) [PyIntArray ex_int_vector]
                                 None []) =
  (Raised TypeError, []).
Proof.
  apply (second_order_default_integer_array sum_first 0 (Q2Qc 1)
           [PyIntArray ex_int_vector] [] (PyIntArray ex_int_vector)).
  - lia.
  - reflexivity.
  - reflexivity.
  - reflexivity.
  - discriminate.
Defined.
